(** * VulkanOps: the dispatch layer of the Vulkan backend, embedded in Rocq

    A shallow embedding of [aten/src/ATen/native/vulkan/VulkanOps.cpp].
    Integers of the source ([int], [int64_t], [uint32_t]) are carried as [Z];
    a [float] is carried as its 32-bit pattern, since the host code only
    moves floats around and never computes with them. *)

From stdpp Require Import base numbers list list_numbers strings pretty gmap sorting.

Open Scope Z_scope.

(** * Part I: the embedding *)

(** ** Macros of VulkanCommon.h *)

Module Macros.

(** Modelled from the spec: the macro [UP_DIV] of VulkanCommon.h, which is
    not among the sources.  The spec gives [UP_DIV(x, 4)] as [ceil(x/4)].
    The division is C's (truncating), hence [Z.quot]. *)
Definition UP_DIV (x y : Z) : Z := Z.quot (x + y - 1) y.

(** Modelled from the spec: [ROUND_UP(x, y)] of VulkanCommon.h, [x] rounded
    up to the next multiple of [y]. *)
Definition ROUND_UP (x y : Z) : Z := Z.quot (x + y - 1) y * y.

(** Modelled from the spec: [ALIGN_UP4(x)] of VulkanCommon.h, [x] rounded up
    to the next multiple of 4, the padded channel count of the block layout. *)
Definition ALIGN_UP4 (x : Z) : Z := ROUND_UP x 4.

End Macros.
Export Macros.

(** ** Machine integers *)

Definition INT_MAX : Z := 2 ^ 31 - 1.

(** Conversion to [int] / [int32_t]: the value modulo [2^32], read as signed. *)
Definition to_int32 (z : Z) : Z := (z + 2 ^ 31) `mod` 2 ^ 32 - 2 ^ 31.

(** Conversion to [uint32_t] and to [size_t] / [VkDeviceSize]. *)
Definition to_uint32 (z : Z) : Z := z `mod` 2 ^ 32.
Definition to_uint64 (z : Z) : Z := z `mod` 2 ^ 64.

(** A [float] is carried as its 32-bit pattern. *)
Definition float := Z.

(** [-infinity] and [+infinity] of [std::numeric_limits<float>]. *)
Definition neg_infinity : float := 0xFF800000.
Definition pos_infinity : float := 0x7F800000.

Definition sizeof_float : Z := 4.

(** ** Loops *)

(** [for (int i = 0; i < n; ++i) body], threading the state [S]. *)
Definition for_range {S : Type} (n : Z) (body : Z → S → S) (s : S) : S :=
  foldl (λ acc i, body i acc) s (seqZ 0 n).

(** [std::accumulate(first, last, 1, std::multiplies<int64_t>())]: the initial
    value [1] is an [int], so the accumulator is an [int] and every 64-bit
    product is converted back to [int]. *)
Definition accumulate_int (l : list Z) : Z :=
  foldl (λ acc x, to_int32 (acc * x)) 1 l.

(** ** The weight repacker *)

Module Repack.

(** State of the host-side pass: the mapped memory and the read cursor. *)
Record RepackState := mkRepack { basePtr : list float; ridx : Z }.

(** [memset(basePtr, 0, size)] seen on the float array: the first [n] floats
    become zero (the all-zero bit pattern). *)
Definition memset0 (mem : list float) (n : Z) : list float :=
  replicate (Z.to_nat n) 0 ++ drop (Z.to_nat n) mem.

(** [dst[i] = v] on the mapped array. *)
Definition store (mem : list float) (i : Z) (v : float) : list float :=
  <[Z.to_nat i := v]> mem.

(** [kernelNCHW_OCHW_repack_O4C4HWi4o4].  [fresh] is the content of the newly
    created [VBuffer] (arbitrary device memory), [mapped] tells whether
    [mappedMemory.ptr()] is non-null.  The result is the content of the
    returned buffer. *)
Definition kernelNCHW_OCHW_repack_O4C4HWi4o4
    (mapped : bool) (fresh : list float)
    (weights : list float) (OC C KH KW : Z) : list float :=
  let C_4 := UP_DIV C 4 in
  let kBufSizeNumel := ALIGN_UP4 OC * ALIGN_UP4 C * KH * KW in
  let oc_4SizeNumel := KW * KH * C_4 * 16 in
  if mapped then
    let idle_device := mkRepack (memset0 fresh kBufSizeNumel) 0 in
    basePtr
      (for_range OC (λ oc s,
         let oc_4 := Z.quot oc 4 in
         let oc_4_i := Z.rem oc 4 in
         let dst_oc := oc_4 * oc_4SizeNumel in
         for_range C (λ ic s,
           let ic_4 := Z.quot ic 4 in
           let ic_4_i := Z.rem ic 4 in
           let dst_ic := dst_oc + ic_4 * KW * KH * 16 in
           for_range KH (λ ky s,
             let dst_ky := dst_ic + ky * KW * 16 in
             for_range KW (λ kx s,
               let dst_kx := dst_ky + kx * 16 in
               mkRepack
                 (store (basePtr s) (dst_kx + (4 * ic_4_i + oc_4_i))
                    (weights !!! Z.to_nat (ridx s)))
                 (ridx s + 1)) s) s) s) idle_device)
  else fresh.

(** Number of floats of the repacked buffer. *)
Definition kBufSizeNumel (OC C KH KW : Z) : Z :=
  ALIGN_UP4 OC * ALIGN_UP4 C * KH * KW.

(** The layout in the spec's words: the 16-float block at block coordinates
    [(c4, o4, k)] starts at float [16 * ((o4 * C_4 + c4) * (KH*KW) + k)]. *)
Definition block_offset (C KH KW : Z) (c4 o4 k : Z) : Z :=
  16 * ((o4 * UP_DIV C 4 + c4) * (KH * KW) + k).

(** Destination of the weight [(oc, ic, ky, kx)] in the spec's words. *)
Definition packed_index (C KH KW : Z) (oc ic ky kx : Z) : Z :=
  block_offset C KH KW (Z.quot ic 4) (Z.quot oc 4) (ky * KW + kx)
  + (4 * Z.rem ic 4 + Z.rem oc 4).

(** Row-major index of [(oc, ic, ky, kx)] in the dense [OC, C, KH, KW] buffer. *)
Definition dense_index (C KH KW : Z) (oc ic ky kx : Z) : Z :=
  ((oc * C + ic) * KH + ky) * KW + kx.

(** Unpacking by the inverse index arithmetic: the dense buffer is rebuilt in
    row-major order, each entry fetched from its packed position. *)
Definition unpack (packed : list float) (OC C KH KW : Z) : list float :=
  for_range OC (λ oc dense,
    for_range C (λ ic dense,
      for_range KH (λ ky dense,
        for_range KW (λ kx dense,
          dense ++ [packed !!! Z.to_nat (packed_index C KH KW oc ic ky kx)])
        dense) dense) dense) [].

(** The index ranges: the true shape, and the shape padded to whole blocks. *)
Definition in_shape (OC C KH KW oc ic ky kx : Z) : Prop :=
  0 ≤ oc < OC ∧ 0 ≤ ic < C ∧ 0 ≤ ky < KH ∧ 0 ≤ kx < KW.

Definition in_padded (OC C KH KW oc ic ky kx : Z) : Prop :=
  0 ≤ oc < ALIGN_UP4 OC ∧ 0 ≤ ic < ALIGN_UP4 C ∧ 0 ≤ ky < KH ∧ 0 ≤ kx < KW.

(** The range on which the [int] arithmetic of the repacker is defined:
    no intermediate product leaves [int]. *)
Definition int_defined (OC C KH KW : Z) : Prop :=
  0 ≤ OC ∧ 0 ≤ C ∧ 0 ≤ KH ∧ 0 ≤ KW ∧
  OC + 3 ≤ INT_MAX ∧ C + 3 ≤ INT_MAX ∧
  ALIGN_UP4 OC * ALIGN_UP4 C ≤ INT_MAX ∧
  ALIGN_UP4 OC * ALIGN_UP4 C * KH ≤ INT_MAX ∧
  kBufSizeNumel OC C KH KW ≤ INT_MAX ∧
  KW * KH ≤ INT_MAX ∧ KW * KH * UP_DIV C 4 * 16 ≤ INT_MAX.

(** Loop invariant of the host-side pass once [r] weights have been copied:
    the cursor is [r], the weights with dense index below [r] sit at their
    packed position, and every float no such weight maps to is still zero. *)
Definition repack_inv (weights : list float) (OC C KH KW : Z)
    (r : Z) (s : RepackState) : Prop :=
  ridx s = r ∧
  length (basePtr s) = Z.to_nat (kBufSizeNumel OC C KH KW) ∧
  (∀ oc ic ky kx, in_shape OC C KH KW oc ic ky kx →
     dense_index C KH KW oc ic ky kx < r →
     basePtr s !! Z.to_nat (packed_index C KH KW oc ic ky kx)
       = Some (weights !!! Z.to_nat (dense_index C KH KW oc ic ky kx))) ∧
  (∀ j : nat, (j < length (basePtr s))%nat →
     (∀ oc ic ky kx, in_shape OC C KH KW oc ic ky kx →
        dense_index C KH KW oc ic ky kx < r →
        Z.to_nat (packed_index C KH KW oc ic ky kx) ≠ j) →
     basePtr s !! j = Some 0).

End Repack.

(** ** The device: images, buffers, tensors and the recorded commands *)

Inductive VkDescriptorType :=
  | VK_DESCRIPTOR_TYPE_STORAGE_IMAGE
  | VK_DESCRIPTOR_TYPE_COMBINED_IMAGE_SAMPLER
  | VK_DESCRIPTOR_TYPE_STORAGE_BUFFER
  | VK_DESCRIPTOR_TYPE_UNIFORM_BUFFER.

(** The shader programs, [GLSL_SPV(name)] in the source. *)
Module GLSL_SPV.
Inductive name :=
  | upsampleNearest2d | adaptive_avg_pool2d | max_pool2d
  | add | add_scalar | mul_scalar
  | conv2d_dw_clamp | KO4C4HW_to_image | conv2d_nogroup_clamp
  | clamp | addmm | mm | mean.
End GLSL_SPV.

Record WorkGroupSize := mkWorkGroupSize { wg_x : Z; wg_y : Z; wg_z : Z }.

(** The types [ImageSizes], [VImage], [VBuffer], [VulkanTensor] and
    [Conv2DParams] are declared in Vulkan.h and VulkanConvolution.h, which
    are not among the sources; they are given here with the members the
    operators use.  A handle is carried with the identity of the device
    object it owns. *)

(** Modelled from the spec: the 3-D size triple (width, height, depth) of a
    device-resident image, declared in Vulkan.h. *)
Definition ImageSize := (Z * Z * Z)%type.

(** Modelled from the spec: [ImageSizes] of Vulkan.h, the extent of an image
    and of the data it holds. *)
Record ImageSizes := mkImageSizes { imageSize : ImageSize; dataSize : ImageSize }.

(** Modelled from the spec: the identity of a device-resident image, either
    the image form a tensor handle owns or an image created on its own. *)
Inductive ImageRef :=
  | TensorImage (tensor : nat)
  | OwnImage (id : nat).

(** Modelled from the spec: [VImage] of Vulkan.h, with its [sizes()]. *)
Record VImage := mkVImage { image_ref : ImageRef; image_sizes : ImageSize }.

(** Modelled from the spec: the identity of a device-resident buffer, either
    the buffer form a tensor handle owns or a buffer created on its own. *)
Inductive BufferRef :=
  | TensorBuffer (tensor : nat)
  | OwnBuffer (id : nat).

Global Instance BufferRef_eq_dec : EqDecision BufferRef.
Proof. solve_decision. Defined.

Global Instance BufferRef_countable : Countable BufferRef :=
  inj_countable'
    (λ r, match r with TensorBuffer t => inl t | OwnBuffer i => inr i end)
    (λ x, match x with inl t => TensorBuffer t | inr i => OwnBuffer i end)
    (λ r, match r with TensorBuffer _ | OwnBuffer _ => eq_refl end).

Global Instance ImageRef_eq_dec : EqDecision ImageRef.
Proof. solve_decision. Defined.

(** Modelled from the spec: [VBuffer] of Vulkan.h, a linear byte region with
    its size in bytes. *)
Record VBuffer := mkVBuffer { buffer_ref : BufferRef; buffer_size : Z }.

(** Modelled from the spec: [VulkanTensor] of Vulkan.h, the tensor handle
    with its logical shape; the data it owns lives in the device state. *)
Record VulkanTensor := mkVulkanTensor { tensor_id : nat; sizes : list Z }.

(** Modelled from the spec: [Conv2DParams] of VulkanConvolution.h, with the
    fields the operators read. *)
Module Conv2D.
Record Params := mkParams {
  N : Z; C : Z; H : Z; W : Z; OC : Z; KH : Z; KW : Z;
  SY : Z; SX : Z; PY : Z; PX : Z; DY : Z; DX : Z; G : Z;
  OH : Z; OW : Z; OC_4 : Z; C_4 : Z
}.
End Conv2D.
Definition Conv2DParams : Type := Conv2D.Params.

(** A field of a constant block. *)
Inductive ConstField :=
  | int32_t (z : Z)
  | float_t (f : float).

(** What an operator asks of the device, in the order it asks. *)
Inductive Event :=
  | makeUniformConstBuffer_ev (cb : list ConstField) (buffer : VBuffer)
  | createDescriptorSetLayoutSinglePool_ev (descriptorTypes : list VkDescriptorType)
  | bindStorageImage_ev (image : ImageRef) (binding : Z)
  | bindShaderRead_ev (image : ImageRef) (binding : Z)
  | bind_ev (buffer : BufferRef) (binding : Z)
  | computeUnit_get_ev (shader : GLSL_SPV.name) (workGroupSize : WorkGroupSize)
  | createCommandBuffer_ev
  | addImageMemoryBarrierToGeneral_ev (image : ImageRef)
  | addImageMemoryBarrierToShaderRead_ev (image : ImageRef)
  | addBufferMemoryBarrier_ev (buffer : BufferRef) (offset size : Z)
  | addMemoryBarrier_host_write_to_shader_read_ev
  | dispatchCommandBuffer_ev (x y z : Z) (workGroupSize : option WorkGroupSize)
  | endCommandBuffer_ev
  | submitAndWaitCommandBuffer_ev
  | vkDestroyDescriptorPool_ev
  | vkDestroyDescriptorSetLayout_ev
  | sync_image_to_buffer_ev (tensor : nat)
  | allocate_storage_ev (tensor : nat)
  | set_data_from_host_ev (tensor : nat) (data : list float)
  | copy_buffer_to_buffer_ev (src dst : BufferRef) (size srcOffset dstOffset : Z)
  | VBuffer_ev (buffer : VBuffer)
  | VImage_ev (image : VImage)
  | copy_from_host_to_device_ev (buffer : BufferRef) (data : list float) (size : Z)
  | set_zeros_ev (buffer : BufferRef)
  | map_flushWriteToDevice_ev (buffer : BufferRef) (content : list float).

(** A byte of a buffer, carried as its value. *)
Definition byte := Z.

(** The device as the operators see it: the bytes held by buffers, the
    identity of the next object created, the device limit the source reads,
    whether host mappings succeed, what a newly created buffer of a given
    number of floats happens to contain, and the commands so far. *)
Record State := mkState {
  storage : gmap BufferRef (list byte);
  next_id : nat;
  minStorageBufferOffsetAlignment : Z;
  host_mappable : bool;
  fresh_memory : Z → list float;
  trace : list Event
}.

(** ** The monad of operator code *)

(** An operator returns, fails a [TORCH_INTERNAL_ASSERT], or leaves the
    behaviour the language and the device define (an index out of range, a
    copy outside a buffer). *)
Inductive Outcome (A : Type) :=
  | Returns (a : A) (s : State)
  | AssertionFailed (msg : string) (s : State)
  | Undefined (s : State).
Arguments Returns {A}.
Arguments AssertionFailed {A}.
Arguments Undefined {A}.

Definition M (A : Type) : Type := State → Outcome A.

Definition ret {A : Type} (a : A) : M A := λ s, Returns a s.

Definition bind {A B : Type} (m : M A) (k : A → M B) : M B :=
  λ s, match m s with
       | Returns a s' => k a s'
       | AssertionFailed msg s' => AssertionFailed msg s'
       | Undefined s' => Undefined s'
       end.

Global Instance M_ret : MRet M := @ret.
Global Instance M_bind : MBind M := λ A B k m, bind m k.

Definition get_state : M State := λ s, Returns s s.

Definition undefined {A : Type} : M A := λ s, Undefined s.

Definition emit (e : Event) : M unit :=
  λ s, Returns tt
    (mkState (storage s) (next_id s) (minStorageBufferOffsetAlignment s)
       (host_mappable s) (fresh_memory s) (trace s ++ [e])).

Definition set_storage (b : BufferRef) (data : list byte) : M unit :=
  λ s, Returns tt
    (mkState (<[b := data]> (storage s)) (next_id s)
       (minStorageBufferOffsetAlignment s) (host_mappable s) (fresh_memory s)
       (trace s)).

Definition fresh_id : M nat :=
  λ s, Returns (next_id s)
    (mkState (storage s) (S (next_id s)) (minStorageBufferOffsetAlignment s)
       (host_mappable s) (fresh_memory s) (trace s)).

(** [TORCH_INTERNAL_ASSERT(cond, msg)]; without a message the text of the
    condition is reported. *)
Definition TORCH_INTERNAL_ASSERT (cond : bool) (msg : string) : M unit :=
  λ s, if cond then Returns tt s else AssertionFailed msg s.

(** [v[i]] on a [std::vector]: out of range it is undefined. *)
Definition index (v : list Z) (i : nat) : M Z :=
  match v !! i with
  | Some x => ret x
  | None => undefined
  end.

(** ** The device interface the operators call *)

(** The members of [VulkanTensor], [VImage], [VBuffer] and of the compute
    unit, and [copy_buffer_to_buffer], are defined in Vulkan.cpp, which is not
    among the sources.  Each call is recorded; the calls that move tensor
    data also act on [storage]. *)

(** Product of the dimensions of a shape. *)
Definition product (shape : list Z) : Z := foldr Z.mul 1 shape.

(** Modelled from the spec: [VulkanTensor::numel()], the element count of a
    tensor, the product of its sizes. *)
Definition numel (t : VulkanTensor) : Z := product (sizes t).

(** Modelled from the spec: [VulkanTensor::dim()], the number of dimensions
    of the logical shape. *)
Definition dim (t : VulkanTensor) : Z := Z.of_nat (length (sizes t)).

(** Modelled from the spec: the extent of the image form of a tensor (the
    rule lives in Vulkan.cpp): width, height, and a depth that packs four
    channels per texel, [depth = ceil(channels/4)]. *)
Definition default_image_sizes (sz : list Z) : ImageSize :=
  match reverse sz with
  | w :: h :: rest => (w, h, UP_DIV (foldr Z.mul 1 rest) 4)
  | [w] => (w, 1, 1)
  | [] => (1, 1, 1)
  end.

(** Modelled from the spec: [VulkanTensor::image()], the image form the
    handle owns. *)
Definition image (t : VulkanTensor) : VImage :=
  mkVImage (TensorImage (tensor_id t)) (default_image_sizes (sizes t)).

(** Modelled from the spec: [VulkanTensor::image(imageSizes)], the image form
    of the handle realized with the requested extent. *)
Definition image_sized (t : VulkanTensor) (imageSizes : ImageSizes) : VImage :=
  mkVImage (TensorImage (tensor_id t)) (imageSize imageSizes).

(** Modelled from the spec: [VulkanTensor::buffer()], the buffer form,
    realized on demand (zero-filled storage of [numel] floats) when the
    tensor has none yet. *)
Definition buffer (t : VulkanTensor) : M VBuffer :=
  s ← get_state;
  match storage s !! TensorBuffer (tensor_id t) with
  | Some data =>
      mret (mkVBuffer (TensorBuffer (tensor_id t)) (Z.of_nat (length data)))
  | None =>
      let data := replicate (Z.to_nat (sizeof_float * numel t)) 0 in
      set_storage (TensorBuffer (tensor_id t)) data;;
      mret (mkVBuffer (TensorBuffer (tensor_id t)) (Z.of_nat (length data)))
  end.

(** Modelled from the spec: [VBuffer::sizeBytes()]. *)
Definition sizeBytes (b : VBuffer) : Z := buffer_size b.

(** Modelled from the spec: [VulkanTensor::sync_image_to_buffer()], the
    resynchronisation after which the buffer form holds the tensor's data;
    [storage] keeps the data of a tensor in that form. *)
Definition sync_image_to_buffer (t : VulkanTensor) : M unit :=
  emit (sync_image_to_buffer_ev (tensor_id t)).

(** Modelled from the spec: the constructor [VulkanTensor t{shape}], a new
    handle without storage yet. *)
Definition VulkanTensor_new (shape : list Z) : M VulkanTensor :=
  id ← fresh_id; mret (mkVulkanTensor id shape).

(** Modelled from the spec: [VulkanTensor::allocate_storage()], zero-filled
    storage of [numel] floats. *)
Definition allocate_storage (t : VulkanTensor) : M unit :=
  set_storage (TensorBuffer (tensor_id t))
    (replicate (Z.to_nat (sizeof_float * numel t)) 0);;
  emit (allocate_storage_ev (tensor_id t)).

(** The four bytes of a float, least significant first. *)
Definition bytes_of_float (f : float) : list byte :=
  (λ i, Z.land (Z.shiftr f (8 * i)) 255) <$> [0; 1; 2; 3].

(** Modelled from the spec: [VulkanTensor::set_data_from_host(data)], the
    upload of [numel] floats from host memory. *)
Definition set_data_from_host (t : VulkanTensor) (data : list float) : M unit :=
  set_storage (TensorBuffer (tensor_id t))
    (mjoin (bytes_of_float <$> take (Z.to_nat (numel t)) data));;
  emit (set_data_from_host_ev (tensor_id t) data).

(** Modelled from the spec: the device-side buffer-to-buffer copy
    [copy_buffer_to_buffer(src, dst, size, srcOffset = 0, dstOffset = 0)] of
    Vulkan.cpp: the bytes [srcOffset, srcOffset + size) of [src] replace the bytes
    [dstOffset, dstOffset + size) of [dst].  A range outside its buffer is
    outside what the device defines. *)
Definition copy_buffer_to_buffer (src dst : VBuffer)
    (size srcOffset dstOffset : Z) : M unit :=
  s ← get_state;
  match storage s !! buffer_ref src, storage s !! buffer_ref dst with
  | Some sdata, Some ddata =>
      if bool_decide (srcOffset + size ≤ Z.of_nat (length sdata)) &&
         bool_decide (dstOffset + size ≤ Z.of_nat (length ddata))
      then
        emit (copy_buffer_to_buffer_ev (buffer_ref src) (buffer_ref dst)
                size srcOffset dstOffset);;
        set_storage (buffer_ref dst)
          (take (Z.to_nat dstOffset) ddata
           ++ take (Z.to_nat size) (drop (Z.to_nat srcOffset) sdata)
           ++ drop (Z.to_nat (dstOffset + size)) ddata)
      else undefined
  | _, _ => undefined
  end.

(** Modelled from the spec: the constructor [VBuffer b{size}], a new buffer
    of [size] bytes. *)
Definition VBuffer_new (size : Z) : M VBuffer :=
  id ← fresh_id;
  let b := mkVBuffer (OwnBuffer id) size in
  emit (VBuffer_ev b);; mret b.

(** Modelled from the spec: the constructor [VImage i{imageSizes}], a new
    image of the given extent. *)
Definition VImage_new (imageSizes : ImageSizes) : M VImage :=
  id ← fresh_id;
  let i := mkVImage (OwnImage id) (imageSize imageSizes) in
  emit (VImage_ev i);; mret i.

(** Modelled from the spec: [makeUniformConstBuffer(&cb, sizeof(cb))], the
    upload of a constant block as a uniform buffer; every field takes four
    bytes. *)
Definition makeUniformConstBuffer (cb : list ConstField) : M VBuffer :=
  id ← fresh_id;
  let b := mkVBuffer (OwnBuffer id) (sizeof_float * Z.of_nat (length cb)) in
  emit (makeUniformConstBuffer_ev cb b);; mret b.

(** Modelled from the spec: the calls below build the descriptor set and
    record the command buffer (Vulkan.cpp); each is kept as the command it
    records, with the resources it names. *)
Definition createDescriptorSetLayoutSinglePool
    (descriptorTypes : list VkDescriptorType) : M unit :=
  emit (createDescriptorSetLayoutSinglePool_ev descriptorTypes).

Definition bindStorageImage (i : VImage) (binding : Z) : M unit :=
  emit (bindStorageImage_ev (image_ref i) binding).

Definition bindShaderRead (i : VImage) (binding : Z) : M unit :=
  emit (bindShaderRead_ev (image_ref i) binding).

Definition bind_buffer (b : VBuffer) (binding : Z) : M unit :=
  emit (bind_ev (buffer_ref b) binding).

Definition computeUnit_get (shader : GLSL_SPV.name) (wgs : WorkGroupSize) : M unit :=
  emit (computeUnit_get_ev shader wgs).

Definition createCommandBuffer : M unit := emit createCommandBuffer_ev.

Definition addImageMemoryBarrierToGeneral (i : VImage) : M unit :=
  emit (addImageMemoryBarrierToGeneral_ev (image_ref i)).

Definition addImageMemoryBarrierToShaderRead (i : VImage) : M unit :=
  emit (addImageMemoryBarrierToShaderRead_ev (image_ref i)).

Definition addBufferMemoryBarrier (b : VBuffer) (offset size : Z) : M unit :=
  emit (addBufferMemoryBarrier_ev (buffer_ref b) offset size).

(** [addMemoryBarrier(VK_PIPELINE_STAGE_HOST_BIT, VK_ACCESS_HOST_WRITE_BIT,
    VK_PIPELINE_STAGE_COMPUTE_SHADER_BIT, VK_ACCESS_SHADER_READ_BIT)]. *)
Definition addMemoryBarrier_host_write_to_shader_read : M unit :=
  emit addMemoryBarrier_host_write_to_shader_read_ev.

(** [dispatchCommandBuffer(x, y, z, workGroupSize)] and the three-argument
    form that takes the group counts themselves. *)
Definition dispatchCommandBuffer (x y z : Z) (wgs : WorkGroupSize) : M unit :=
  emit (dispatchCommandBuffer_ev x y z (Some wgs)).

Definition dispatchCommandBuffer_groups (x y z : Z) : M unit :=
  emit (dispatchCommandBuffer_ev x y z None).

Definition endCommandBuffer : M unit := emit endCommandBuffer_ev.
Definition submitAndWaitCommandBuffer : M unit := emit submitAndWaitCommandBuffer_ev.
Definition vkDestroyDescriptorPool : M unit := emit vkDestroyDescriptorPool_ev.
Definition vkDestroyDescriptorSetLayout : M unit := emit vkDestroyDescriptorSetLayout_ev.

(** ** The operators of VulkanOps.cpp, in source order *)

Definition upsample_nearest2d (output input : VulkanTensor)
    (IH IW OH OW _N _C : Z) (scaleH scaleW : float) : M unit :=
  let C := _N * _C in
  let cb := [int32_t (to_int32 IW); int32_t (to_int32 IH);
             int32_t (to_int32 OW); int32_t (to_int32 OH);
             float_t scaleW; float_t scaleH] in
  constBuffer ← makeUniformConstBuffer cb;
  createDescriptorSetLayoutSinglePool
    [VK_DESCRIPTOR_TYPE_STORAGE_IMAGE;
     VK_DESCRIPTOR_TYPE_COMBINED_IMAGE_SAMPLER;
     VK_DESCRIPTOR_TYPE_UNIFORM_BUFFER];;
  bindStorageImage (image output) 0;;
  bindShaderRead (image input) 1;;
  bind_buffer constBuffer 2;;
  let workGroupSize := mkWorkGroupSize 8 8 1 in
  computeUnit_get GLSL_SPV.upsampleNearest2d workGroupSize;;
  createCommandBuffer;;
  addImageMemoryBarrierToShaderRead (image input);;
  dispatchCommandBuffer OW OH C workGroupSize;;
  endCommandBuffer;;
  submitAndWaitCommandBuffer;;
  vkDestroyDescriptorPool;;
  vkDestroyDescriptorSetLayout.

Definition reshape_copy (input : VulkanTensor) (shape : list Z) : M VulkanTensor :=
  let shapeNumel := accumulate_int shape in
  TORCH_INTERNAL_ASSERT (bool_decide (shapeNumel = numel input))
    "reshape_copy expects shape with equal number of elements with input Vulkan tensor";;
  sync_image_to_buffer input;;
  output ← VulkanTensor_new shape;
  allocate_storage output;;
  src ← buffer input;
  dst ← buffer output;
  copy_buffer_to_buffer src dst (sizeBytes src) 0 0;;
  mret output.

(** The body of the loop of [cat], threading [outputOffset]. *)
Definition cat_step (output : VulkanTensor) (outputOffset : Z)
    (input : VulkanTensor) : M Z :=
  sync_image_to_buffer input;;
  let sizeBytes := to_uint64 (sizeof_float * numel input) in
  src ← buffer input;
  dst ← buffer output;
  copy_buffer_to_buffer src dst sizeBytes 0 outputOffset;;
  mret (to_uint64 (outputOffset + sizeBytes)).

(** [for (const auto& input : inputs) body], threading the state [S] through
    operator code. *)
Fixpoint for_each {A S : Type} (body : S → A → M S) (l : list A) (s : S) : M S :=
  match l with
  | [] => mret s
  | x :: l' => s' ← body s x; for_each body l' s'
  end.

Definition cat (output : VulkanTensor) (inputs : list VulkanTensor)
    (dim : Z) : M VulkanTensor :=
  let outputOffset := 0 in
  for_each (cat_step output) inputs outputOffset;;
  mret output.

Definition adaptive_avg_pool2d (output input : VulkanTensor)
    (IH IW OH OW IN IC : Z) : M unit :=
  let C := IN * IC in
  let cb := [int32_t (to_int32 IW); int32_t (to_int32 IH);
             int32_t (to_int32 OW); int32_t (to_int32 OH)] in
  constBuffer ← makeUniformConstBuffer cb;
  createDescriptorSetLayoutSinglePool
    [VK_DESCRIPTOR_TYPE_STORAGE_IMAGE;
     VK_DESCRIPTOR_TYPE_COMBINED_IMAGE_SAMPLER;
     VK_DESCRIPTOR_TYPE_UNIFORM_BUFFER];;
  bindStorageImage (image output) 0;;
  bindShaderRead (image input) 1;;
  bind_buffer constBuffer 2;;
  let workGroupSize := mkWorkGroupSize 8 8 1 in
  computeUnit_get GLSL_SPV.adaptive_avg_pool2d workGroupSize;;
  createCommandBuffer;;
  addImageMemoryBarrierToShaderRead (image input);;
  dispatchCommandBuffer OW OH C workGroupSize;;
  endCommandBuffer;;
  submitAndWaitCommandBuffer;;
  vkDestroyDescriptorPool;;
  vkDestroyDescriptorSetLayout.

Definition max_pool2d (output input : VulkanTensor)
    (iH iW oH oW _n _c kH kW dH dW padH padW dilationH dilationW : Z) : M unit :=
  let c := _n * _c in
  let cb := [int32_t iW; int32_t iH; int32_t c; int32_t 0;
             int32_t oW; int32_t oH; int32_t c; int32_t 0;
             int32_t kW; int32_t kH;
             int32_t dW; int32_t dH;
             int32_t padW; int32_t padH;
             int32_t dilationW; int32_t dilationH] in
  constBuffer ← makeUniformConstBuffer cb;
  createDescriptorSetLayoutSinglePool
    [VK_DESCRIPTOR_TYPE_STORAGE_IMAGE;
     VK_DESCRIPTOR_TYPE_COMBINED_IMAGE_SAMPLER;
     VK_DESCRIPTOR_TYPE_UNIFORM_BUFFER];;
  bindStorageImage (image output) 0;;
  bindShaderRead (image input) 1;;
  bind_buffer constBuffer 2;;
  let workGroupSize := mkWorkGroupSize 8 8 1 in
  computeUnit_get GLSL_SPV.max_pool2d workGroupSize;;
  createCommandBuffer;;
  addImageMemoryBarrierToShaderRead (image input);;
  dispatchCommandBuffer oW oH c workGroupSize;;
  endCommandBuffer;;
  submitAndWaitCommandBuffer;;
  vkDestroyDescriptorPool;;
  vkDestroyDescriptorSetLayout.

(** [std::array<int64_t, 4> a = {1, 1, 1, 1};
     std::copy(s.begin(), s.end(), a.end() - dim);] *)
Definition copy_to_end4 (s : list Z) : list Z :=
  list_inserts (4 - length s)%nat s [1; 1; 1; 1].

(** Tensor + tensor [add]. *)
Definition add (output input0 input1 : VulkanTensor) (alpha : float) : M unit :=
  let odim := dim output in
  TORCH_INTERNAL_ASSERT (bool_decide (odim ≤ 4))
    "Vulkan add is implemented for dim <= 4, output dim > 4";;
  let i0dim := dim input0 in
  TORCH_INTERNAL_ASSERT (bool_decide (i0dim ≤ 4))
    "Vulkan add is implemented for dim <= 4, input0 dim > 4";;
  let i1dim := dim input1 in
  TORCH_INTERNAL_ASSERT (bool_decide (i1dim ≤ 4))
    "Vulkan add is implemented for dim <= 4, input1 dim > 4";;
  let os := sizes output in
  let i0s := sizes input0 in
  let i1s := sizes input1 in
  let os4 := copy_to_end4 os in
  let i0s4 := copy_to_end4 i0s in
  let i1s4 := copy_to_end4 i1s in
  TORCH_INTERNAL_ASSERT (bool_decide (os4 = i0s4) && bool_decide (i0s4 = i1s4))
    "Vulkan add expects the same dimensions for all operands";;
  let C := (os4 !!! 0%nat) * (os4 !!! 1%nat) in
  let H := os4 !!! 2%nat in
  let W := os4 !!! 3%nat in
  let cb := [int32_t (to_int32 W); int32_t (to_int32 H); int32_t (to_int32 C);
             float_t alpha] in
  constBuffer ← makeUniformConstBuffer cb;
  createDescriptorSetLayoutSinglePool
    [VK_DESCRIPTOR_TYPE_STORAGE_IMAGE;
     VK_DESCRIPTOR_TYPE_COMBINED_IMAGE_SAMPLER;
     VK_DESCRIPTOR_TYPE_COMBINED_IMAGE_SAMPLER;
     VK_DESCRIPTOR_TYPE_UNIFORM_BUFFER];;
  bindStorageImage (image output) 0;;
  bindShaderRead (image input0) 1;;
  bindShaderRead (image input1) 2;;
  bind_buffer constBuffer 3;;
  let workGroupSize := mkWorkGroupSize 8 8 1 in
  computeUnit_get GLSL_SPV.add workGroupSize;;
  createCommandBuffer;;
  addImageMemoryBarrierToGeneral (image output);;
  addImageMemoryBarrierToShaderRead (image input0);;
  addImageMemoryBarrierToShaderRead (image input1);;
  dispatchCommandBuffer W H C workGroupSize;;
  endCommandBuffer;;
  submitAndWaitCommandBuffer;;
  vkDestroyDescriptorPool;;
  vkDestroyDescriptorSetLayout.

(** [std::accumulate(sizes.cbegin(), sizes.cend() - 2, 1, ...)]: with fewer
    than two sizes the range is not a range. *)
Definition accumulate_all_but_last2 (sizes : list Z) : M Z :=
  if bool_decide (2 ≤ length sizes)%nat
  then mret (accumulate_int (take (length sizes - 2) sizes))
  else undefined.

(** Tensor + scalar [add]. *)
Definition add_scalar (output input : VulkanTensor) (s : float) : M unit :=
  let sizes := sizes input in
  C ← accumulate_all_but_last2 sizes;
  H ← index sizes 2;
  W ← index sizes 3;
  let cb := [int32_t (to_int32 W); int32_t (to_int32 H); int32_t C; int32_t 0;
             float_t s] in
  constBuffer ← makeUniformConstBuffer cb;
  createDescriptorSetLayoutSinglePool
    [VK_DESCRIPTOR_TYPE_STORAGE_IMAGE;
     VK_DESCRIPTOR_TYPE_COMBINED_IMAGE_SAMPLER;
     VK_DESCRIPTOR_TYPE_UNIFORM_BUFFER];;
  bindStorageImage (image output) 0;;
  bindShaderRead (image input) 1;;
  bind_buffer constBuffer 2;;
  let workGroupSize := mkWorkGroupSize 8 8 1 in
  computeUnit_get GLSL_SPV.add_scalar workGroupSize;;
  createCommandBuffer;;
  addImageMemoryBarrierToGeneral (image output);;
  addImageMemoryBarrierToShaderRead (image input);;
  dispatchCommandBuffer W H C workGroupSize;;
  endCommandBuffer;;
  submitAndWaitCommandBuffer;;
  vkDestroyDescriptorPool;;
  vkDestroyDescriptorSetLayout.

(** Tensor * scalar [mul]. *)
Definition mul (output input : VulkanTensor) (s : float) : M unit :=
  let sizes := sizes input in
  C ← accumulate_all_but_last2 sizes;
  H ← index sizes 2;
  W ← index sizes 3;
  let cb := [int32_t (to_int32 W); int32_t (to_int32 H); int32_t C; int32_t 0;
             float_t s] in
  constBuffer ← makeUniformConstBuffer cb;
  createDescriptorSetLayoutSinglePool
    [VK_DESCRIPTOR_TYPE_STORAGE_IMAGE;
     VK_DESCRIPTOR_TYPE_COMBINED_IMAGE_SAMPLER;
     VK_DESCRIPTOR_TYPE_UNIFORM_BUFFER];;
  bindStorageImage (image output) 0;;
  bindShaderRead (image input) 1;;
  bind_buffer constBuffer 2;;
  let workGroupSize := mkWorkGroupSize 8 8 1 in
  computeUnit_get GLSL_SPV.mul_scalar workGroupSize;;
  createCommandBuffer;;
  addImageMemoryBarrierToGeneral (image output);;
  addImageMemoryBarrierToShaderRead (image input);;
  dispatchCommandBuffer W H C workGroupSize;;
  endCommandBuffer;;
  submitAndWaitCommandBuffer;;
  vkDestroyDescriptorPool;;
  vkDestroyDescriptorSetLayout.

(** The call [kernelNCHW_OCHW_repack_O4C4HWi4o4(weight, OC, C, KH, KW)] as
    the operators make it: the buffer is created, filled by the host-side
    pass of [Repack] and flushed to the device. *)
Definition repacked_kernelBuffer (weights : list float)
    (OC C KH KW : Z) : M VBuffer :=
  let kBufSizeNumel := ALIGN_UP4 OC * ALIGN_UP4 C * KH * KW in
  let size := to_uint64 (sizeof_float * kBufSizeNumel) in
  kernelBuffer ← VBuffer_new size;
  s ← get_state;
  emit (map_flushWriteToDevice_ev (buffer_ref kernelBuffer)
          (Repack.kernelNCHW_OCHW_repack_O4C4HWi4o4 (host_mappable s)
             (fresh_memory s kBufSizeNumel) weights OC C KH KW));;
  mret kernelBuffer.

Definition bufferFromOptionalHostData (data : option (list float))
    (dataSize bufferSize : Z) : M VBuffer :=
  TORCH_INTERNAL_ASSERT (bool_decide (dataSize ≤ bufferSize))
    ("buffer size(" +:+ pretty bufferSize +:+ ") is not enough for data("
       +:+ pretty dataSize +:+ ")");;
  s ← get_state;
  let sizeAligned := ROUND_UP bufferSize (minStorageBufferOffsetAlignment s) in
  buffer ← VBuffer_new sizeAligned;
  match data with
  | Some d => emit (copy_from_host_to_device_ev (buffer_ref buffer) d dataSize)
  | None => emit (set_zeros_ev (buffer_ref buffer))
  end;;
  mret buffer.

Definition bufferZeros (size : Z) : M VBuffer :=
  buffer ← VBuffer_new size;
  emit (set_zeros_ev (buffer_ref buffer));;
  mret buffer.

(** [output_min ? *output_min : -infinity] and its counterpart. *)
Definition outputMin_of (output_min : option float) : float :=
  default neg_infinity output_min.

Definition outputMax_of (output_max : option float) : float :=
  default pos_infinity output_max.

(** [conv2d_depthwise] with the bias in a buffer. *)
Definition conv2d_depthwise (output input weight : VulkanTensor)
    (biasBuffer : VBuffer) (params : Conv2DParams)
    (output_min output_max : option float) : M unit :=
  TORCH_INTERNAL_ASSERT (bool_decide (Conv2D.G params = Conv2D.C params))
    "params.G == params.C";;
  let osizes := sizes output in
  osizes2 ← index osizes 2;
  TORCH_INTERNAL_ASSERT (bool_decide (osizes2 = Conv2D.OH params))
    "osizes[2] == params.OH";;
  osizes3 ← index osizes 3;
  TORCH_INTERNAL_ASSERT (bool_decide (osizes3 = Conv2D.OW params))
    "osizes[3] == params.OW";;
  let cb :=
    [int32_t (to_int32 (Conv2D.PX params)); int32_t (to_int32 (Conv2D.PY params));
     int32_t (to_int32 (Conv2D.KW params)); int32_t (to_int32 (Conv2D.KH params));
     int32_t (to_int32 (Conv2D.SX params)); int32_t (to_int32 (Conv2D.SY params));
     int32_t (to_int32 (Conv2D.DX params)); int32_t (to_int32 (Conv2D.DY params));
     int32_t (to_int32 (Conv2D.OW params)); int32_t (to_int32 (Conv2D.OH params));
     int32_t (to_int32 (Conv2D.OC_4 params)); int32_t 0;
     int32_t (to_int32 (Conv2D.W params)); int32_t (to_int32 (Conv2D.H params));
     int32_t (to_int32 (Conv2D.C_4 params)); int32_t 0;
     float_t (outputMin_of output_min); float_t (outputMax_of output_max)] in
  constBuffer ← makeUniformConstBuffer cb;
  createDescriptorSetLayoutSinglePool
    [VK_DESCRIPTOR_TYPE_STORAGE_IMAGE;
     VK_DESCRIPTOR_TYPE_COMBINED_IMAGE_SAMPLER;
     VK_DESCRIPTOR_TYPE_COMBINED_IMAGE_SAMPLER;
     VK_DESCRIPTOR_TYPE_STORAGE_BUFFER;
     VK_DESCRIPTOR_TYPE_UNIFORM_BUFFER];;
  bindStorageImage (image output) 0;;
  bindShaderRead (image input) 1;;
  bindShaderRead (image weight) 2;;
  bind_buffer biasBuffer 3;;
  bind_buffer constBuffer 4;;
  let workGroupSize := mkWorkGroupSize 8 8 1 in
  computeUnit_get GLSL_SPV.conv2d_dw_clamp workGroupSize;;
  createCommandBuffer;;
  addImageMemoryBarrierToGeneral (image output);;
  addImageMemoryBarrierToShaderRead (image input);;
  addImageMemoryBarrierToShaderRead (image weight);;
  dispatchCommandBuffer (Conv2D.OW params) (Conv2D.OH params)
    (Conv2D.OC_4 params) workGroupSize;;
  endCommandBuffer;;
  submitAndWaitCommandBuffer;;
  vkDestroyDescriptorPool;;
  vkDestroyDescriptorSetLayout.

(** The bias buffer every overload builds from the optional host bias:
    [bufferFromOptionalHostData(bias, sizeof(float) * OC,
     sizeof(float) * ALIGN_UP4(OC))], the sizes taken as [uint32_t]. *)
Definition bias_buffer (bias : option (list float)) (params : Conv2DParams) : M VBuffer :=
  bufferFromOptionalHostData bias
    (to_uint32 (sizeof_float * Conv2D.OC params))
    (to_uint32 (sizeof_float * ALIGN_UP4 (Conv2D.OC params))).

(** [conv2d_depthwise] with a tensor weight and an optional host bias. *)
Definition conv2d_depthwise_bias (output input weight : VulkanTensor)
    (bias : option (list float)) (params : Conv2DParams)
    (output_min output_max : option float) : M unit :=
  biasBuffer ← bias_buffer bias params;
  conv2d_depthwise output input weight biasBuffer params output_min output_max.

(** [conv2d_depthwise] with a host weight and an optional host bias. *)
Definition conv2d_depthwise_weight (output input : VulkanTensor)
    (weight : list float) (bias : option (list float)) (params : Conv2DParams)
    (output_min output_max : option float) : M unit :=
  weightTensor ← VulkanTensor_new
    [Conv2D.OC params; Conv2D.KH params; Conv2D.KW params];
  set_data_from_host weightTensor weight;;
  biasBuffer ← bias_buffer bias params;
  conv2d_depthwise output input weightTensor biasBuffer params output_min output_max.

Definition conv2d_prepack_weights_image_sizes (OC C KH KW : Z) : ImageSizes :=
  mkImageSizes (ALIGN_UP4 C, UP_DIV OC 4, KH * KW)
               (ALIGN_UP4 C, UP_DIV OC 4, KH * KW).

Definition conv2d_prepack_weights_to_image (image : VImage)
    (weight : list float) (OC C KH KW : Z) : M unit :=
  kernelBuffer ← repacked_kernelBuffer weight
    (to_int32 OC) (to_int32 C) (to_int32 KH) (to_int32 KW);
  let OC_4 := UP_DIV OC 4 in
  let C_4 := UP_DIV C 4 in
  let expectedSizes := conv2d_prepack_weights_image_sizes OC C KH KW in
  TORCH_INTERNAL_ASSERT
    (bool_decide (image_sizes image = imageSize expectedSizes))
    "Out VImage sizes do not match expected";;
  let cb := [int32_t (to_int32 (KW * KH)); int32_t (to_int32 C_4)] in
  constBuffer ← makeUniformConstBuffer cb;
  createDescriptorSetLayoutSinglePool
    [VK_DESCRIPTOR_TYPE_STORAGE_IMAGE;
     VK_DESCRIPTOR_TYPE_STORAGE_BUFFER;
     VK_DESCRIPTOR_TYPE_UNIFORM_BUFFER];;
  bindStorageImage image 0;;
  bind_buffer kernelBuffer 1;;
  bind_buffer constBuffer 2;;
  let workGroupSize := mkWorkGroupSize 1 1 1 in
  computeUnit_get GLSL_SPV.KO4C4HW_to_image workGroupSize;;
  createCommandBuffer;;
  addImageMemoryBarrierToGeneral image;;
  addBufferMemoryBarrier kernelBuffer 0 (sizeBytes kernelBuffer);;
  addMemoryBarrier_host_write_to_shader_read;;
  dispatchCommandBuffer C_4 OC_4 (KH * KW) workGroupSize;;
  endCommandBuffer;;
  submitAndWaitCommandBuffer;;
  vkDestroyDescriptorPool;;
  vkDestroyDescriptorSetLayout.

Definition conv2d_prepack_weights_image (weight : list float)
    (OC C KH KW : Z) : M VImage :=
  image ← VImage_new (conv2d_prepack_weights_image_sizes OC C KH KW);
  conv2d_prepack_weights_to_image image weight OC C KH KW;;
  mret image.


(** [conv2d] with a prepacked kernel image and the bias in a buffer. *)
Definition conv2d (output input : VulkanTensor) (kernelImage : VImage)
    (biasBuffer : VBuffer) (params : Conv2DParams)
    (output_min output_max : option float) : M unit :=
  TORCH_INTERNAL_ASSERT (bool_decide (Conv2D.G params = 1))
    "Prepacked kernel VImage for non-group conv2d only";;
  let osizes := sizes output in
  osizes2 ← index osizes 2;
  TORCH_INTERNAL_ASSERT (bool_decide (osizes2 = Conv2D.OH params))
    "Output tensor dims do not match specified conv2d params";;
  osizes3 ← index osizes 3;
  TORCH_INTERNAL_ASSERT (bool_decide (osizes3 = Conv2D.OW params))
    "Output tensor dims do not match specified conv2d params";;
  let outputMin := outputMin_of output_min in
  let outputMax := outputMax_of output_max in
  let cb :=
    [int32_t (to_int32 (Conv2D.PX params)); int32_t (to_int32 (Conv2D.PY params));
     int32_t (to_int32 (Conv2D.KW params)); int32_t (to_int32 (Conv2D.KH params));
     int32_t (to_int32 (Conv2D.SX params)); int32_t (to_int32 (Conv2D.SY params));
     int32_t (to_int32 (Conv2D.DX params)); int32_t (to_int32 (Conv2D.DY params));
     int32_t (to_int32 (Conv2D.OW params)); int32_t (to_int32 (Conv2D.OH params));
     int32_t (to_int32 (Conv2D.OC_4 params)); int32_t (to_int32 (Conv2D.OC params));
     int32_t (to_int32 (Conv2D.W params)); int32_t (to_int32 (Conv2D.H params));
     int32_t (to_int32 (Conv2D.C_4 params)); int32_t (to_int32 (Conv2D.C params));
     float_t outputMin; float_t outputMax] in
  constBuffer ← makeUniformConstBuffer cb;
  createDescriptorSetLayoutSinglePool
    [VK_DESCRIPTOR_TYPE_STORAGE_IMAGE;
     VK_DESCRIPTOR_TYPE_COMBINED_IMAGE_SAMPLER;
     VK_DESCRIPTOR_TYPE_COMBINED_IMAGE_SAMPLER;
     VK_DESCRIPTOR_TYPE_STORAGE_BUFFER;
     VK_DESCRIPTOR_TYPE_UNIFORM_BUFFER];;
  bindStorageImage (image output) 0;;
  bindShaderRead (image input) 1;;
  bindShaderRead kernelImage 2;;
  bind_buffer biasBuffer 3;;
  bind_buffer constBuffer 4;;
  let workGroupSize := mkWorkGroupSize 1 1 (Conv2D.OC_4 params) in
  computeUnit_get GLSL_SPV.conv2d_nogroup_clamp workGroupSize;;
  createCommandBuffer;;
  addImageMemoryBarrierToGeneral (image output);;
  addImageMemoryBarrierToShaderRead (image input);;
  addImageMemoryBarrierToShaderRead kernelImage;;
  dispatchCommandBuffer_groups
    (UP_DIV (Conv2D.OW params) (4 * wg_x workGroupSize))
    (UP_DIV (Conv2D.OH params) (wg_y workGroupSize))
    (UP_DIV (Conv2D.OC_4 params) (wg_z workGroupSize));;
  endCommandBuffer;;
  submitAndWaitCommandBuffer;;
  vkDestroyDescriptorPool;;
  vkDestroyDescriptorSetLayout.

(** [conv2d] with a prepacked kernel image and an optional host bias. *)
Definition conv2d_image_bias (output input : VulkanTensor) (kernelImage : VImage)
    (bias : option (list float)) (params : Conv2DParams)
    (output_min output_max : option float) : M unit :=
  TORCH_INTERNAL_ASSERT (bool_decide (Conv2D.G params = 1))
    "Prepacked kernel VImage for non-group conv2d only";;
  biasBuffer ← bias_buffer bias params;
  conv2d output input kernelImage biasBuffer params output_min output_max.

(** [conv2d] with a prepacked weight tensor and an optional host bias. *)
Definition conv2d_prepacked_bias (output input weight_prepacked : VulkanTensor)
    (bias : option (list float)) (params : Conv2DParams)
    (output_min output_max : option float) : M unit :=
  if bool_decide (Conv2D.G params > 1) then
    biasBuffer ← bias_buffer bias params;
    conv2d_depthwise output input weight_prepacked biasBuffer params
      output_min output_max
  else
    conv2d_image_bias output input (image weight_prepacked) bias params
      output_min output_max.

(** [conv2d] with a prepacked weight tensor and a bias tensor. *)
Definition conv2d_prepacked_tensor_bias
    (output input weight_prepacked bias : VulkanTensor) (params : Conv2DParams)
    (output_min output_max : option float) : M unit :=
  if bool_decide (Conv2D.G params > 1) then
    biasBuffer ← buffer bias;
    conv2d_depthwise output input weight_prepacked biasBuffer params
      output_min output_max
  else
    biasBuffer ← buffer bias;
    conv2d output input (image weight_prepacked) biasBuffer params
      output_min output_max.

(** [conv2d] with a host weight and an optional host bias. *)
Definition conv2d_weight (output input : VulkanTensor) (weight : list float)
    (bias : option (list float)) (params : Conv2DParams)
    (output_min output_max : option float) : M unit :=
  if bool_decide (Conv2D.G params > 1) then
    TORCH_INTERNAL_ASSERT (bool_decide (Conv2D.G params = Conv2D.C params))
      "Vulkan conv2d supports only no-group and depthwise";;
    conv2d_depthwise_weight output input weight bias params output_min output_max
  else
    kernelImage ← conv2d_prepack_weights_image weight
      (Conv2D.OC params) (Conv2D.C params) (Conv2D.KH params) (Conv2D.KW params);
    conv2d_image_bias output input kernelImage bias params output_min output_max.

Definition clamp (output input : VulkanTensor) (min max : float) : M unit :=
  let sizes := sizes output in
  sizes0 ← index sizes 0;
  sizes1 ← index sizes 1;
  let C := sizes0 * sizes1 in
  H ← index sizes 2;
  W ← index sizes 3;
  let C_4 := UP_DIV C 4 in
  let cb := [int32_t (to_int32 W); int32_t (to_int32 H);
             int32_t (to_int32 C_4); int32_t (to_int32 C);
             float_t min; float_t max] in
  constBuffer ← makeUniformConstBuffer cb;
  createDescriptorSetLayoutSinglePool
    [VK_DESCRIPTOR_TYPE_STORAGE_IMAGE;
     VK_DESCRIPTOR_TYPE_COMBINED_IMAGE_SAMPLER;
     VK_DESCRIPTOR_TYPE_UNIFORM_BUFFER];;
  bindStorageImage (image output) 0;;
  bindShaderRead (image input) 1;;
  bind_buffer constBuffer 2;;
  let workGroupSize := mkWorkGroupSize 8 8 1 in
  computeUnit_get GLSL_SPV.clamp workGroupSize;;
  createCommandBuffer;;
  addImageMemoryBarrierToGeneral (image output);;
  addImageMemoryBarrierToShaderRead (image input);;
  dispatchCommandBuffer W H C workGroupSize;;
  endCommandBuffer;;
  submitAndWaitCommandBuffer;;
  vkDestroyDescriptorPool;;
  vkDestroyDescriptorSetLayout.

Definition addmm (output : VulkanTensor) (t : option VulkanTensor)
    (m1 m2 : VulkanTensor) (beta alpha : float) : M unit :=
  let hasT := bool_decide (is_Some t) in
  let m1Sizes := sizes m1 in
  let m2Sizes := sizes m2 in
  TORCH_INTERNAL_ASSERT (bool_decide (length m1Sizes = 2%nat)) "m1Sizes.size() == 2";;
  TORCH_INTERNAL_ASSERT (bool_decide (length m2Sizes = 2%nat)) "m2Sizes.size() == 2";;
  m1Sizes0 ← index m1Sizes 0;
  m1Sizes1 ← index m1Sizes 1;
  let m1H := to_uint32 m1Sizes0 in
  let m1W := to_uint32 m1Sizes1 in
  let m1C := 1 in
  let m1C_4 := UP_DIV m1C 4 in
  m2Sizes0 ← index m2Sizes 0;
  m2Sizes1 ← index m2Sizes 1;
  let m2H := to_uint32 m2Sizes0 in
  let m2W := to_uint32 m2Sizes1 in
  let m2C := 1 in
  let m2C_4 := UP_DIV m2C 4 in
  let OH := to_uint32 m1Sizes0 in
  let OW := to_uint32 m2Sizes1 in
  TORCH_INTERNAL_ASSERT (bool_decide (m1W = m2H)) "m1W == m2H";;
  TORCH_INTERNAL_ASSERT (bool_decide (m1C = m2C)) "m1C == m2C";;
  let C := m1C in
  let C_4 := UP_DIV C 4 in
  let K := m1W in
  let cb := [int32_t (to_int32 OW); int32_t (to_int32 OH);
             int32_t (to_int32 C_4); int32_t (to_int32 C);
             float_t beta; float_t alpha; int32_t (to_int32 K)] in
  constBuffer ← makeUniformConstBuffer cb;
  let descriptorTypes :=
    if hasT then
      [VK_DESCRIPTOR_TYPE_STORAGE_IMAGE;
       VK_DESCRIPTOR_TYPE_COMBINED_IMAGE_SAMPLER;
       VK_DESCRIPTOR_TYPE_COMBINED_IMAGE_SAMPLER;
       VK_DESCRIPTOR_TYPE_UNIFORM_BUFFER;
       VK_DESCRIPTOR_TYPE_COMBINED_IMAGE_SAMPLER]
    else
      [VK_DESCRIPTOR_TYPE_STORAGE_IMAGE;
       VK_DESCRIPTOR_TYPE_COMBINED_IMAGE_SAMPLER;
       VK_DESCRIPTOR_TYPE_COMBINED_IMAGE_SAMPLER;
       VK_DESCRIPTOR_TYPE_UNIFORM_BUFFER] in
  createDescriptorSetLayoutSinglePool descriptorTypes;;
  bindStorageImage (image output) 0;;
  bindShaderRead (image m1) 1;;
  bindShaderRead (image m2) 2;;
  bind_buffer constBuffer 3;;
  match t with
  | Some t => bindShaderRead (image t) 4
  | None => mret tt
  end;;
  let workGroupSize := mkWorkGroupSize 8 8 1 in
  match t with
  | Some t =>
      computeUnit_get GLSL_SPV.addmm workGroupSize;;
      createCommandBuffer;;
      addImageMemoryBarrierToGeneral (image output);;
      addImageMemoryBarrierToShaderRead (image m1);;
      addImageMemoryBarrierToShaderRead (image m2);;
      addImageMemoryBarrierToShaderRead (image t);;
      dispatchCommandBuffer OW OH C_4 workGroupSize;;
      endCommandBuffer;;
      submitAndWaitCommandBuffer
  | None =>
      computeUnit_get GLSL_SPV.mm workGroupSize;;
      createCommandBuffer;;
      addImageMemoryBarrierToGeneral (image output);;
      addImageMemoryBarrierToShaderRead (image m1);;
      addImageMemoryBarrierToShaderRead (image m2);;
      dispatchCommandBuffer OW OH C_4 workGroupSize;;
      endCommandBuffer;;
      submitAndWaitCommandBuffer
  end;;
  vkDestroyDescriptorPool;;
  vkDestroyDescriptorSetLayout.

Definition mean (output input : VulkanTensor) : M unit :=
  let isizes := sizes input in
  N ← index isizes 0;
  C ← index isizes 1;
  H ← index isizes 2;
  W ← index isizes 3;
  let C_4 := UP_DIV (N * C) 4 in
  let cb := [int32_t (to_int32 W); int32_t (to_int32 H);
             int32_t (to_int32 C); int32_t (to_int32 N)] in
  constBuffer ← makeUniformConstBuffer cb;
  createDescriptorSetLayoutSinglePool
    [VK_DESCRIPTOR_TYPE_STORAGE_IMAGE;
     VK_DESCRIPTOR_TYPE_COMBINED_IMAGE_SAMPLER;
     VK_DESCRIPTOR_TYPE_UNIFORM_BUFFER];;
  bindStorageImage (image output) 0;;
  bindShaderRead (image input) 1;;
  bind_buffer constBuffer 2;;
  let workGroupSize := mkWorkGroupSize 1 1 1 in
  computeUnit_get GLSL_SPV.mean workGroupSize;;
  createCommandBuffer;;
  addImageMemoryBarrierToGeneral (image output);;
  addImageMemoryBarrierToShaderRead (image input);;
  dispatchCommandBuffer 1 1 C_4 workGroupSize;;
  endCommandBuffer;;
  submitAndWaitCommandBuffer;;
  vkDestroyDescriptorPool;;
  vkDestroyDescriptorSetLayout.

(** ** Reading the recorded commands *)

(** The commands recorded between two states of one run. *)
Definition new_events (s s' : State) : list Event :=
  drop (length (trace s)) (trace s').

(** What a descriptor binding holds. *)
Inductive Bound :=
  | BoundImage (i : ImageRef)
  | BoundBuffer (b : BufferRef).

Definition binding_of (e : Event) : option (Z * Bound) :=
  match e with
  | bindStorageImage_ev i n => Some (n, BoundImage i)
  | bindShaderRead_ev i n => Some (n, BoundImage i)
  | bind_ev b n => Some (n, BoundBuffer b)
  | _ => None
  end.

(** The descriptor bindings of a run, in the order they were made. *)
Definition bindings (evs : list Event) : list (Z * Bound) := omap binding_of evs.

(** The constant blocks uploaded in a run. *)
Definition const_blocks (evs : list Event) : list BufferRef :=
  omap (λ e, match e with
             | makeUniformConstBuffer_ev _ b => Some (buffer_ref b)
             | _ => None
             end) evs.

Definition is_dispatch (e : Event) : bool :=
  match e with dispatchCommandBuffer_ev _ _ _ _ => true | _ => false end.

(** The commands recorded before the first dispatch. *)
Fixpoint before_dispatch (evs : list Event) : list Event :=
  match evs with
  | [] => []
  | e :: evs' => if is_dispatch e then [] else e :: before_dispatch evs'
  end.

(** The buffer copies of a run: source, destination, size and offsets. *)
Definition copies (evs : list Event) : list (BufferRef * BufferRef * Z * Z * Z) :=
  omap (λ e, match e with
             | copy_buffer_to_buffer_ev src dst size so do => Some (src, dst, size, so, do)
             | _ => None
             end) evs.

(** ** The operator entry points that record a dispatch *)

(** One constructor per function of the source that builds a descriptor set
    and records a dispatch, with the arguments of the call. *)
Inductive Call :=
  | call_upsample_nearest2d (output input : VulkanTensor)
      (IH IW OH OW _N _C : Z) (scaleH scaleW : float)
  | call_adaptive_avg_pool2d (output input : VulkanTensor) (IH IW OH OW IN IC : Z)
  | call_max_pool2d (output input : VulkanTensor)
      (iH iW oH oW _n _c kH kW dH dW padH padW dilationH dilationW : Z)
  | call_add (output input0 input1 : VulkanTensor) (alpha : float)
  | call_add_scalar (output input : VulkanTensor) (s : float)
  | call_mul (output input : VulkanTensor) (s : float)
  | call_conv2d_depthwise (output input weight : VulkanTensor)
      (biasBuffer : VBuffer) (params : Conv2DParams)
      (output_min output_max : option float)
  | call_conv2d_prepack_weights_to_image (image : VImage)
      (weight : list float) (OC C KH KW : Z)
  | call_conv2d (output input : VulkanTensor) (kernelImage : VImage)
      (biasBuffer : VBuffer) (params : Conv2DParams)
      (output_min output_max : option float)
  | call_clamp (output input : VulkanTensor) (min max : float)
  | call_addmm (output : VulkanTensor) (t : option VulkanTensor)
      (m1 m2 : VulkanTensor) (beta alpha : float)
  | call_mean (output input : VulkanTensor).

Definition run (c : Call) : M unit :=
  match c with
  | call_upsample_nearest2d output input IH IW OH OW _N _C scaleH scaleW =>
      upsample_nearest2d output input IH IW OH OW _N _C scaleH scaleW
  | call_adaptive_avg_pool2d output input IH IW OH OW IN IC =>
      adaptive_avg_pool2d output input IH IW OH OW IN IC
  | call_max_pool2d output input iH iW oH oW _n _c kH kW dH dW padH padW dilationH dilationW =>
      max_pool2d output input iH iW oH oW _n _c kH kW dH dW padH padW dilationH dilationW
  | call_add output input0 input1 alpha => add output input0 input1 alpha
  | call_add_scalar output input s => add_scalar output input s
  | call_mul output input s => mul output input s
  | call_conv2d_depthwise output input weight biasBuffer params output_min output_max =>
      conv2d_depthwise output input weight biasBuffer params output_min output_max
  | call_conv2d_prepack_weights_to_image image weight OC C KH KW =>
      conv2d_prepack_weights_to_image image weight OC C KH KW
  | call_conv2d output input kernelImage biasBuffer params output_min output_max =>
      conv2d output input kernelImage biasBuffer params output_min output_max
  | call_clamp output input min max => clamp output input min max
  | call_addmm output t m1 m2 beta alpha => addmm output t m1 m2 beta alpha
  | call_mean output input => mean output input
  end.

(** The image a call writes. *)
Definition call_output (c : Call) : ImageRef :=
  match c with
  | call_upsample_nearest2d output _ _ _ _ _ _ _ _ _
  | call_adaptive_avg_pool2d output _ _ _ _ _ _ _
  | call_max_pool2d output _ _ _ _ _ _ _ _ _ _ _ _ _ _ _
  | call_add output _ _ _
  | call_add_scalar output _ _
  | call_mul output _ _
  | call_conv2d_depthwise output _ _ _ _ _ _
  | call_conv2d output _ _ _ _ _ _
  | call_clamp output _ _ _
  | call_addmm output _ _ _ _ _
  | call_mean output _ => image_ref (image output)
  | call_conv2d_prepack_weights_to_image image _ _ _ _ _ => image_ref image
  end.

(** The images a call reads, in the order of its arguments. *)
Definition call_input_images (c : Call) : list ImageRef :=
  match c with
  | call_upsample_nearest2d _ input _ _ _ _ _ _ _ _
  | call_adaptive_avg_pool2d _ input _ _ _ _ _ _
  | call_max_pool2d _ input _ _ _ _ _ _ _ _ _ _ _ _ _ _
  | call_add_scalar _ input _
  | call_mul _ input _
  | call_clamp _ input _ _
  | call_mean _ input => [image_ref (image input)]
  | call_add _ input0 input1 _ => [image_ref (image input0); image_ref (image input1)]
  | call_conv2d_depthwise _ input weight _ _ _ _ =>
      [image_ref (image input); image_ref (image weight)]
  | call_conv2d _ input kernelImage _ _ _ _ =>
      [image_ref (image input); image_ref kernelImage]
  | call_addmm _ t m1 m2 _ _ =>
      (image_ref ∘ image <$> option_list t)
      ++ [image_ref (image m1); image_ref (image m2)]
  | call_conv2d_prepack_weights_to_image _ _ _ _ _ _ => []
  end.

(** The buffers a call reads besides its constant block: the bias, and for
    the weight upload the buffer the repacked weights were written to (the
    first object the call creates). *)
Definition call_buffers (c : Call) (s : State) : list BufferRef :=
  match c with
  | call_conv2d_depthwise _ _ _ biasBuffer _ _ _
  | call_conv2d _ _ _ biasBuffer _ _ _ => [buffer_ref biasBuffer]
  | call_conv2d_prepack_weights_to_image _ _ _ _ _ _ => [OwnBuffer (next_id s)]
  | _ => []
  end.

(** The binding order of the spec: the output at index 0, then the inputs in
    argument order, then the auxiliary buffers, then the constant block. *)
Definition contract_order (output : ImageRef) (inputs : list ImageRef)
    (buffers : list BufferRef) (constBlock : BufferRef) : list (Z * Bound) :=
  imap (λ i b, (Z.of_nat i, b))
    (BoundImage output :: (BoundImage <$> inputs)
       ++ (BoundBuffer <$> buffers) ++ [BoundBuffer constBlock]).

(** The binding order of the code: that of the spec, except for [addmm] with
    the additive term [t], whose image comes after the constant block. *)
Definition designed_order (c : Call) (s : State) (constBlock : BufferRef) :
    list (Z * Bound) :=
  match c with
  | call_addmm output (Some t) m1 m2 _ _ =>
      imap (λ i b, (Z.of_nat i, b))
        [BoundImage (image_ref (image output));
         BoundImage (image_ref (image m1));
         BoundImage (image_ref (image m2));
         BoundBuffer constBlock;
         BoundImage (image_ref (image t))]
  | _ => contract_order (call_output c) (call_input_images c) (call_buffers c s)
           constBlock
  end.

(** The barriers the spec asks for, recorded before the dispatch. *)
Definition barriers_before_dispatch (c : Call) (evs : list Event) : Prop :=
  addImageMemoryBarrierToGeneral_ev (call_output c) ∈ before_dispatch evs ∧
  ∀ i, i ∈ call_input_images c →
       addImageMemoryBarrierToShaderRead_ev i ∈ before_dispatch evs.

(** ** Shapes *)

(** Left-padding a shape to four dimensions with 1s. *)
Definition pad4 (shape : list Z) : list Z :=
  replicate (4 - length shape) 1 ++ shape.

(** ** What the theorems speak about *)

(** [q] is [ceil(x/4)]: the least [q] with [x ≤ 4 q]. *)
Definition ceil_div4 (x q : Z) : Prop := 4 * (q - 1) < x ≤ 4 * q.

(** An outcome that is a failed assertion with one of the messages [msgs],
    reached without any dispatch recorded since [s]. *)
Definition rejected_before_dispatch {A : Type} (o : Outcome A) (s : State)
    (msgs : list string) : Prop :=
  ∃ msg s', o = AssertionFailed msg s' ∧ msg ∈ msgs ∧
            Forall (λ e, is_dispatch e = false) (new_events s s').

Definition is_general_barrier (e : Event) : bool :=
  match e with addImageMemoryBarrierToGeneral_ev _ => true | _ => false end.

(** A call that returns having recorded a dispatch and no barrier that moves
    an image to general access. *)
Definition records_no_output_barrier (c : Call) (s : State) : Prop :=
  ∃ s', run c s = Returns tt s' ∧
        Exists (λ e, is_dispatch e = true) (new_events s s') ∧
        Forall (λ e, is_general_barrier e = false) (new_events s s').

(** The calls whose code records the barrier on the output image. *)
Definition has_output_barrier (c : Call) : bool :=
  match c with
  | call_upsample_nearest2d _ _ _ _ _ _ _ _ _ _
  | call_adaptive_avg_pool2d _ _ _ _ _ _ _ _
  | call_max_pool2d _ _ _ _ _ _ _ _ _ _ _ _ _ _ _ _ => false
  | _ => true
  end.

(** The commands [cat] records for [inputs] when the first copy lands at
    byte [off] of the buffer of tensor [out]. *)
Fixpoint cat_events (out : nat) (off : Z) (inputs : list VulkanTensor) : list Event :=
  match inputs with
  | [] => []
  | t :: ts =>
      sync_image_to_buffer_ev (tensor_id t)
      :: copy_buffer_to_buffer_ev (TensorBuffer (tensor_id t)) (TensorBuffer out)
           (sizeof_float * numel t) 0 off
      :: cat_events out (off + sizeof_float * numel t) ts
  end.

(** Destination offsets of the copies of a run. *)
Definition copy_offsets (evs : list Event) : list Z :=
  (λ c, c.2) <$> copies evs.

(** An input of [cat] as the theorem takes it: its buffer holds exactly its
    [numel] floats, it is not empty, and it is not the output itself. *)
Definition cat_input (s : State) (output : VulkanTensor)
    (t : VulkanTensor) (data : list byte) : Prop :=
  storage s !! TensorBuffer (tensor_id t) = Some data ∧
  Z.of_nat (length data) = sizeof_float * numel t ∧
  0 < numel t ∧
  tensor_id t ≠ tensor_id output.

(** The message of the size check in [bufferFromOptionalHostData] for the
    bias buffer of [params]. *)
Definition bias_size_message (params : Conv2DParams) : string :=
  "buffer size(" +:+ pretty (to_uint32 (sizeof_float * ALIGN_UP4 (Conv2D.OC params)))
    +:+ ") is not enough for data("
    +:+ pretty (to_uint32 (sizeof_float * Conv2D.OC params)) +:+ ")".

(** The requirement of tensor + tensor [add] in the spec's words. *)
Definition add_shapes_match (output input0 input1 : VulkanTensor) : Prop :=
  dim output ≤ 4 ∧ dim input0 ≤ 4 ∧ dim input1 ≤ 4 ∧
  pad4 (sizes output) = pad4 (sizes input0) ∧
  pad4 (sizes input0) = pad4 (sizes input1).

Definition add_messages : list string :=
  ["Vulkan add is implemented for dim <= 4, output dim > 4";
   "Vulkan add is implemented for dim <= 4, input0 dim > 4";
   "Vulkan add is implemented for dim <= 4, input1 dim > 4";
   "Vulkan add expects the same dimensions for all operands"].

Definition final_state {A : Type} (o : Outcome A) : State :=
  match o with Returns _ s | AssertionFailed _ s | Undefined s => s end.

Definition idle_device : State :=
  mkState ∅ 100 16 true (λ n, replicate (Z.to_nat n) 0) [].

Definition device_with (contents : list (nat * list byte)) : State :=
  mkState (list_to_map (prod_map TensorBuffer id <$> contents)) 100 16 true
    (λ n, replicate (Z.to_nat n) 0) [].

(** ** What the further properties speak about *)

(** The descriptor sets created in a run, each by the descriptor types it was
    declared with. *)
Definition descriptor_sets (evs : list Event) : list (list VkDescriptorType) :=
  omap (λ e, match e with
             | createDescriptorSetLayoutSinglePool_ev tys => Some tys
             | _ => None
             end) evs.

(** The commands recorded from the first dispatch on. *)
Definition from_dispatch (evs : list Event) : list Event :=
  drop (length (before_dispatch evs)) evs.

(** The shader programs requested in a run. *)
Definition shaders (evs : list Event) : list GLSL_SPV.name :=
  omap (λ e, match e with computeUnit_get_ev sh _ => Some sh | _ => None end) evs.

(** The constant blocks uploaded in a run, by their fields. *)
Definition const_fields (evs : list Event) : list (list ConstField) :=
  omap (λ e, match e with
             | makeUniformConstBuffer_ev cb _ => Some cb
             | _ => None
             end) evs.

(** Modelled from the spec: the kind of resource a binding call fills.
    [bindStorageImage] fills a storage image and [bindShaderRead] a sampled
    image; a constant block is uploaded as a uniform buffer, every other
    buffer is bound as a storage buffer. *)
Definition bound_type (constBlocks : list BufferRef) (e : Event) :
    option (Z * VkDescriptorType) :=
  match e with
  | bindStorageImage_ev _ n => Some (n, VK_DESCRIPTOR_TYPE_STORAGE_IMAGE)
  | bindShaderRead_ev _ n => Some (n, VK_DESCRIPTOR_TYPE_COMBINED_IMAGE_SAMPLER)
  | bind_ev b n =>
      Some (n, if bool_decide (b ∈ constBlocks)
               then VK_DESCRIPTOR_TYPE_UNIFORM_BUFFER
               else VK_DESCRIPTOR_TYPE_STORAGE_BUFFER)
  | _ => None
  end.

(** A buffer handle that exists in state [s]: it was created before the next
    identity the device hands out. *)
Definition existing_buffer (s : State) (b : VBuffer) : Prop :=
  match buffer_ref b with
  | OwnBuffer i => (i < next_id s)%nat
  | TensorBuffer _ => True
  end.

(** The buffers a call receives as arguments. *)
Definition call_buffer_args (c : Call) : list VBuffer :=
  match c with
  | call_conv2d_depthwise _ _ _ biasBuffer _ _ _
  | call_conv2d _ _ _ biasBuffer _ _ _ => [biasBuffer]
  | _ => []
  end.

(** * Part II: the properties *)

Import Repack.

(** ** Loops and index arithmetic *)

Lemma for_range_nonpos {S : Type} n (body : Z → S → S) s :
  n ≤ 0 → for_range n body s = s.
Proof. intros Hn. unfold for_range. by rewrite seqZ_nil. Qed.

Lemma for_range_succ {S : Type} n (body : Z → S → S) s :
  0 ≤ n → for_range (n + 1) body s = body n (for_range n body s).
Proof.
  intros Hn. unfold for_range.
  rewrite seqZ_app by lia. rewrite foldl_app.
  rewrite (seqZ_cons (0 + n) 1) by lia. rewrite (seqZ_nil _ (Z.pred 1)) by lia.
  simpl. by rewrite Z.add_0_l.
Qed.

Lemma for_range_ind {S : Type} (P : Z → S → Prop) n (body : Z → S → S) s :
  0 ≤ n → P 0 s →
  (∀ i t, 0 ≤ i < n → P i t → P (i + 1) (body i t)) →
  P n (for_range n body s).
Proof.
  intros Hn H0 Hstep.
  assert (∀ k : nat, Z.of_nat k ≤ n → P (Z.of_nat k) (for_range (Z.of_nat k) body s)) as Hk.
  { induction k as [|k IH]; intros Hle.
    - by rewrite for_range_nonpos.
    - rewrite Nat2Z.inj_succ, <- Z.add_1_r.
      rewrite for_range_succ by lia. apply Hstep; [lia|]. apply IH. lia. }
  specialize (Hk (Z.to_nat n)). rewrite Z2Nat.id in Hk by done. apply Hk. lia.
Qed.

Lemma horner_inj n a b a' b' :
  0 ≤ b < n → 0 ≤ b' < n → a * n + b = a' * n + b' → a = a' ∧ b = b'.
Proof. intros Hb Hb' Heq. assert (a = a') by nia. subst a'. lia. Qed.

Lemma horner_lt n m a b : 0 ≤ b < n → a < m → a * n + b < m * n.
Proof. nia. Qed.

Lemma horner_bound n m a b :
  0 ≤ a < m → 0 ≤ b < n → 0 ≤ a * n + b < m * n.
Proof. intros Ha Hb. split; [nia|]. apply horner_lt; lia. Qed.

Lemma quot4_rem4 x : 0 ≤ x → x = 4 * Z.quot x 4 + Z.rem x 4 ∧ 0 ≤ Z.rem x 4 < 4 ∧ 0 ≤ Z.quot x 4.
Proof.
  intros Hx. rewrite Z.quot_div_nonneg, Z.rem_mod_nonneg by lia.
  pose proof (Z.div_mod x 4). pose proof (Z.mod_pos_bound x 4).
  pose proof (Z.div_pos x 4). lia.
Qed.

Lemma UP_DIV4_spec x : 0 ≤ x → 4 * UP_DIV x 4 - 3 ≤ x ≤ 4 * UP_DIV x 4.
Proof.
  intros Hx. unfold UP_DIV. rewrite Z.quot_div_nonneg by lia.
  pose proof (Z.div_mod (x + 4 - 1) 4). pose proof (Z.mod_pos_bound (x + 4 - 1) 4). lia.
Qed.

Lemma ALIGN_UP4_UP_DIV x : ALIGN_UP4 x = 4 * UP_DIV x 4.
Proof. unfold ALIGN_UP4, ROUND_UP, UP_DIV. lia. Qed.



(** Machine integers *)

Lemma to_int32_eqm a b : a `mod` 2 ^ 32 = b `mod` 2 ^ 32 → to_int32 a = to_int32 b.
Proof.
  intros Hab. unfold to_int32.
  rewrite <- (Zplus_mod_idemp_l a), Hab, Zplus_mod_idemp_l. done.
Qed.

Lemma to_int32_mod a : to_int32 a `mod` 2 ^ 32 = a `mod` 2 ^ 32.
Proof.
  unfold to_int32. rewrite Zminus_mod_idemp_l. f_equal. lia.
Qed.

Lemma to_int32_small a : - 2 ^ 31 ≤ a ≤ INT_MAX → to_int32 a = a.
Proof.
  unfold to_int32, INT_MAX. intros Ha. rewrite Z.mod_small by lia. lia.
Qed.

Lemma to_int32_idemp a : to_int32 (to_int32 a) = to_int32 a.
Proof. apply to_int32_eqm, to_int32_mod. Qed.

Lemma to_int32_range a : - 2 ^ 31 ≤ to_int32 a ≤ INT_MAX.
Proof.
  unfold to_int32, INT_MAX.
  pose proof (Z.mod_pos_bound (a + 2 ^ 31) (2 ^ 32)). lia.
Qed.

Lemma accumulate_from_product a l :
  to_int32 (foldl (λ acc x, to_int32 (acc * x)) a l) = to_int32 (a * product l).
Proof.
  revert a. induction l as [|x l IH]; intros a; simpl.
  - f_equal. lia.
  - rewrite IH. apply to_int32_eqm.
    rewrite <- Zmult_mod_idemp_l, to_int32_mod, Zmult_mod_idemp_l.
    f_equal. lia.
Qed.

Lemma accumulate_fixed l a :
  to_int32 a = a →
  to_int32 (foldl (λ acc x, to_int32 (acc * x)) a l)
  = foldl (λ acc x, to_int32 (acc * x)) a l.
Proof.
  revert a. induction l as [|x l IH]; intros a Ha; simpl; [done|].
  apply IH, to_int32_idemp.
Qed.

Lemma accumulate_int_product l : accumulate_int l = to_int32 (product l).
Proof.
  unfold accumulate_int.
  rewrite <- accumulate_fixed by reflexivity.
  rewrite accumulate_from_product. f_equal. lia.
Qed.

Lemma to_uint64_small z : 0 ≤ z < 2 ^ 64 → to_uint64 z = z.
Proof. intros. unfold to_uint64. by apply Z.mod_small. Qed.

(** ** Recorded commands *)

Lemma new_events_app s s' evs :
  trace s' = trace s ++ evs → new_events s s' = evs.
Proof. unfold new_events. intros ->. by rewrite drop_app_length. Qed.

(** Stepping through operator code. *)

Ltac step_ops :=
  cbv beta iota zeta delta
    [mbind mret M_bind M_ret bind ret get_state undefined emit set_storage
     fresh_id TORCH_INTERNAL_ASSERT index accumulate_all_but_last2
     makeUniformConstBuffer createDescriptorSetLayoutSinglePool
     bindStorageImage bindShaderRead bind_buffer computeUnit_get
     createCommandBuffer addImageMemoryBarrierToGeneral
     addImageMemoryBarrierToShaderRead addBufferMemoryBarrier
     addMemoryBarrier_host_write_to_shader_read dispatchCommandBuffer
     dispatchCommandBuffer_groups endCommandBuffer submitAndWaitCommandBuffer
     vkDestroyDescriptorPool vkDestroyDescriptorSetLayout
     VBuffer_new VImage_new VulkanTensor_new sync_image_to_buffer
     repacked_kernelBuffer
     image image_sized image_ref buffer_ref sizeBytes buffer_size
     storage next_id minStorageBufferOffsetAlignment host_mappable
     fresh_memory trace].

Ltac trace_eq :=
  simpl; rewrite <- ?app_assoc; first [reflexivity | symmetry; apply app_nil_r].

(** Case analysis on the next test the operator code makes. *)
Ltac branch :=
  match goal with
  | |- context [bool_decide ?P] => destruct (bool_decide P) eqn:?
  | |- context [match ?l !! ?i with _ => _ end] => destruct (l !! i) eqn:?
  end; step_ops.

Ltac returned :=
  repeat branch;
  try (intros ?; discriminate);
  intros [= <-].

Ltac unfold_calls :=
  cbv beta iota delta
    [run upsample_nearest2d adaptive_avg_pool2d max_pool2d add add_scalar mul
     conv2d_depthwise conv2d_prepack_weights_to_image conv2d clamp addmm mean].

Ltac in_list := repeat first [apply list_elem_of_here | apply list_elem_of_further].

Ltac no_dispatch :=
  (erewrite new_events_app by trace_eq); repeat constructor.

Ltac rejected :=
  unfold rejected_before_dispatch; do 2 eexists;
  split; [reflexivity|split; [in_list|no_dispatch]].

Ltac step_code :=
  cbv beta iota zeta delta
    [mbind mret M_bind M_ret bind ret get_state undefined emit set_storage
     fresh_id TORCH_INTERNAL_ASSERT index
     VBuffer_new VImage_new VulkanTensor_new sync_image_to_buffer
     allocate_storage sizeBytes andb];
  cbn [storage next_id minStorageBufferOffsetAlignment host_mappable
       fresh_memory trace buffer_ref buffer_size tensor_id sizes].

(** Case analysis on every test the operator code makes. *)
Ltac branches :=
  repeat first [branch | progress (cbv beta iota delta [andb]; step_ops)].

(** Reading the tests back as facts. *)
Ltac decided :=
  repeat match goal with
         | H : bool_decide _ = true |- _ => apply bool_decide_eq_true_1 in H
         | H : bool_decide _ = false |- _ => apply bool_decide_eq_false_1 in H
         | H : _ !! _ = None |- _ => apply lookup_ge_None_1 in H
         end.

(** ** C1: the weight repacker *)

(** Two positions of the block layout coincide only when block and lanes do. *)
Lemma block_lane_inj C4 KHW o4 c4 k li lo o4' c4' k' li' lo' :
  0 ≤ c4 < C4 → 0 ≤ c4' < C4 → 0 ≤ k < KHW → 0 ≤ k' < KHW →
  0 ≤ li < 4 → 0 ≤ li' < 4 → 0 ≤ lo < 4 → 0 ≤ lo' < 4 →
  16 * ((o4 * C4 + c4) * KHW + k) + (4 * li + lo)
    = 16 * ((o4' * C4 + c4') * KHW + k') + (4 * li' + lo') →
  o4 = o4' ∧ c4 = c4' ∧ k = k' ∧ li = li' ∧ lo = lo'.
Proof.
  intros Hc Hc' Hk Hk' Hli Hli' Hlo Hlo' Heq.
  destruct (horner_inj 16 ((o4 * C4 + c4) * KHW + k) (4 * li + lo)
    ((o4' * C4 + c4') * KHW + k') (4 * li' + lo')) as [Hblk Hlane]; [lia..|].
  destruct (horner_inj 4 li lo li' lo') as [-> ->]; [lia..|].
  destruct (horner_inj KHW (o4 * C4 + c4) k (o4' * C4 + c4') k') as [Hoc ->]; [lia..|].
  destruct (horner_inj C4 o4 c4 o4' c4') as [-> ->]; [lia..|].
  done.
Qed.

Section repack_layout.

Context (OC C KH KW : Z).

#[local] Abbreviation shape := (in_shape OC C KH KW).
#[local] Abbreviation padded := (in_padded OC C KH KW).
#[local] Abbreviation packed_at := (packed_index C KH KW).
#[local] Abbreviation dense_at := (dense_index C KH KW).
#[local] Abbreviation numel_packed := (kBufSizeNumel OC C KH KW).

Lemma in_shape_padded oc ic ky kx : shape oc ic ky kx → padded oc ic ky kx.
Proof.
  unfold in_shape, in_padded. intros (?&?&?&?).
  rewrite !ALIGN_UP4_UP_DIV.
  pose proof (UP_DIV4_spec OC). pose proof (UP_DIV4_spec C). lia.
Qed.

(** A channel index splits into its block and its lane. *)
Lemma padded_blocks oc ic ky kx :
  padded oc ic ky kx →
  0 ≤ Z.quot oc 4 < UP_DIV OC 4 ∧ 0 ≤ Z.rem oc 4 < 4 ∧
  0 ≤ Z.quot ic 4 < UP_DIV C 4 ∧ 0 ≤ Z.rem ic 4 < 4 ∧
  0 ≤ ky * KW + kx < KH * KW.
Proof.
  unfold in_padded. rewrite !ALIGN_UP4_UP_DIV. intros (Hoc & Hic & Hky & Hkx).
  destruct (quot4_rem4 oc) as (Eoc & Roc & Qoc); [lia|].
  destruct (quot4_rem4 ic) as (Eic & Ric & Qic); [lia|].
  assert (0 ≤ ky * KW + kx < KH * KW) by (apply horner_bound; lia).
  split_and!; lia.
Qed.

Lemma packed_index_inj oc ic ky kx oc' ic' ky' kx' :
  padded oc ic ky kx → padded oc' ic' ky' kx' →
  packed_at oc ic ky kx = packed_at oc' ic' ky' kx' →
  oc = oc' ∧ ic = ic' ∧ ky = ky' ∧ kx = kx'.
Proof.
  intros Hp Hp' Heq.
  pose proof (padded_blocks _ _ _ _ Hp) as (Ho4 & Hlo & Hc4 & Hli & Hk).
  pose proof (padded_blocks _ _ _ _ Hp') as (Ho4' & Hlo' & Hc4' & Hli' & Hk').
  destruct Hp as (Hoc & Hic & Hky & Hkx), Hp' as (Hoc' & Hic' & Hky' & Hkx').
  unfold packed_index, block_offset in Heq.
  destruct (block_lane_inj _ _ _ _ _ _ _ _ _ _ _ _
              Hc4 Hc4' Hk Hk' Hli Hli' Hlo Hlo' Heq) as (E1 & E2 & E3 & E4 & E5).
  destruct (horner_inj KW ky kx ky' kx') as [-> ->]; [lia..|].
  destruct (quot4_rem4 oc) as (Eoc & _); [lia|].
  destruct (quot4_rem4 ic) as (Eic & _); [lia|].
  destruct (quot4_rem4 oc') as (Eoc' & _); [lia|].
  destruct (quot4_rem4 ic') as (Eic' & _); [lia|].
  lia.
Qed.

Lemma packed_index_bound oc ic ky kx :
  padded oc ic ky kx → 0 ≤ packed_at oc ic ky kx < numel_packed.
Proof.
  intros Hp.
  pose proof (padded_blocks _ _ _ _ Hp) as (Ho4 & Hlo & Hc4 & Hli & Hk).
  unfold packed_index, block_offset, kBufSizeNumel. rewrite !ALIGN_UP4_UP_DIV.
  assert (0 ≤ Z.quot oc 4 * UP_DIV C 4 + Z.quot ic 4 < UP_DIV OC 4 * UP_DIV C 4) as Hb
    by (apply horner_bound; lia).
  assert (0 ≤ (Z.quot oc 4 * UP_DIV C 4 + Z.quot ic 4) * (KH * KW) + (ky * KW + kx)
            < UP_DIV OC 4 * UP_DIV C 4 * (KH * KW)) as Hblk
    by (apply horner_bound; lia).
  lia.
Qed.

Lemma dense_index_inj oc ic ky kx oc' ic' ky' kx' :
  shape oc ic ky kx → shape oc' ic' ky' kx' →
  dense_at oc ic ky kx = dense_at oc' ic' ky' kx' →
  oc = oc' ∧ ic = ic' ∧ ky = ky' ∧ kx = kx'.
Proof.
  unfold in_shape, dense_index.
  intros (Hoc & Hic & Hky & Hkx) (Hoc' & Hic' & Hky' & Hkx') Heq.
  destruct (horner_inj KW ((oc * C + ic) * KH + ky) kx
    ((oc' * C + ic') * KH + ky') kx') as [H1 ->]; [lia..|].
  destruct (horner_inj KH (oc * C + ic) ky (oc' * C + ic') ky') as [H2 ->]; [lia..|].
  destruct (horner_inj C oc ic oc' ic') as [-> ->]; [lia..|].
  done.
Qed.

Lemma dense_index_bound oc ic ky kx :
  shape oc ic ky kx → 0 ≤ dense_at oc ic ky kx < OC * C * KH * KW.
Proof.
  unfold in_shape, dense_index. intros (Hoc & Hic & Hky & Hkx).
  assert (0 ≤ oc * C + ic < OC * C) by (apply horner_bound; lia).
  assert (0 ≤ (oc * C + ic) * KH + ky < OC * C * KH) by (apply horner_bound; lia).
  apply horner_bound; lia.
Qed.

(** The pointer arithmetic of the source lands on [packed_index]. *)
Lemma dst_packed_index oc ic ky kx :
  Z.quot oc 4 * (KW * KH * UP_DIV C 4 * 16) + Z.quot ic 4 * KW * KH * 16
    + ky * KW * 16 + kx * 16 + (4 * Z.rem ic 4 + Z.rem oc 4)
  = packed_at oc ic ky kx.
Proof. unfold packed_index, block_offset. lia. Qed.

(** No weight of the true shape is written to a padding lane. *)
Lemma padding_not_written c4 o4 k li lo oc ic ky kx :
  0 ≤ c4 < UP_DIV C 4 → 0 ≤ k < KH * KW → 0 ≤ li < 4 → 0 ≤ lo < 4 →
  OC ≤ 4 * o4 + lo ∨ C ≤ 4 * c4 + li →
  shape oc ic ky kx →
  packed_at oc ic ky kx ≠ block_offset C KH KW c4 o4 k + (4 * li + lo).
Proof.
  intros Hc4 Hk Hli Hlo Hout Hin Heq.
  pose proof (padded_blocks _ _ _ _ (in_shape_padded _ _ _ _ Hin))
    as (Ho4' & Hlo' & Hc4' & Hli' & Hk').
  destruct Hin as (Hoc & Hic & Hky & Hkx).
  destruct (quot4_rem4 oc) as (Eoc & _); [lia|].
  destruct (quot4_rem4 ic) as (Eic & _); [lia|].
  unfold packed_index, block_offset in Heq.
  destruct (block_lane_inj _ _ _ _ _ _ _ _ _ _ _ _
              Hc4' Hc4 Hk' Hk Hli' Hli Hlo' Hlo Heq) as (E1 & E2 & E3 & E4 & E5).
  lia.
Qed.

Context (weights : list float).
Hypothesis (HOC : 0 ≤ OC) (HC : 0 ≤ C) (HKH : 0 ≤ KH) (HKW : 0 ≤ KW).

#[local] Abbreviation inv := (repack_inv weights OC C KH KW).

Lemma repack_inv_init fresh :
  length fresh = Z.to_nat numel_packed →
  inv 0 (mkRepack (memset0 fresh numel_packed) 0).
Proof.
  intros Hlen. unfold repack_inv, memset0; simpl.
  rewrite drop_ge by lia. rewrite app_nil_r, length_replicate.
  split_and!; [done..| |].
  - intros oc ic ky kx Hin Hlt.
    pose proof (dense_index_bound _ _ _ _ Hin). lia.
  - intros j Hj _. by apply lookup_replicate_2.
Qed.

(** One iteration of the innermost loop. *)
Lemma repack_inv_step oc ic ky kx s :
  shape oc ic ky kx →
  inv (dense_at oc ic ky kx) s →
  inv (dense_at oc ic ky kx + 1)
    (mkRepack
       (store (basePtr s) (packed_at oc ic ky kx) (weights !!! Z.to_nat (ridx s)))
       (ridx s + 1)).
Proof.
  intros Hin (Hr & Hlen & Hset & Hzero).
  pose proof (packed_index_bound _ _ _ _ (in_shape_padded _ _ _ _ Hin)) as Hb.
  unfold repack_inv, store; simpl. rewrite length_insert.
  split_and!; [lia|done| |].
  - intros oc' ic' ky' kx' Hin' Hlt.
    destruct (decide (dense_at oc' ic' ky' kx' = dense_at oc ic ky kx)) as [Heq|Hne].
    + destruct (dense_index_inj _ _ _ _ _ _ _ _ Hin' Hin Heq) as (-> & -> & -> & ->).
      rewrite Hr. apply list_lookup_insert_eq. lia.
    + rewrite list_lookup_insert_ne; [apply Hset; [done|lia]|].
      intros Hidx.
      pose proof (packed_index_bound _ _ _ _ (in_shape_padded _ _ _ _ Hin')) as Hb'.
      destruct (packed_index_inj oc ic ky kx oc' ic' ky' kx') as (-> & -> & -> & ->);
        [by apply in_shape_padded..|lia|done].
  - intros j Hj Hfree.
    rewrite list_lookup_insert_ne.
    + apply Hzero; [done|]. intros oc' ic' ky' kx' Hin' Hlt. apply Hfree; [done|lia].
    + apply Hfree; [done|lia].
Qed.

(** The four nested loops, from the zeroed buffer to the last weight. *)
Lemma repack_inv_run fresh :
  length fresh = Z.to_nat numel_packed →
  ∃ s, kernelNCHW_OCHW_repack_O4C4HWi4o4 true fresh weights OC C KH KW = basePtr s ∧
       inv (OC * C * KH * KW) s.
Proof.
  intros Hlen.
  unfold kernelNCHW_OCHW_repack_O4C4HWi4o4. eexists; split; [reflexivity|].
  replace (OC * C * KH * KW) with (dense_at OC 0 0 0) by (unfold dense_index; lia).
  apply (for_range_ind (λ oc s, inv (dense_at oc 0 0 0) s));
    [done|by apply repack_inv_init|].
  intros oc s1 Hoc Hs1.
  replace (dense_at (oc + 1) 0 0 0) with (dense_at oc C 0 0)
    by (unfold dense_index; lia).
  apply (for_range_ind (λ ic s, inv (dense_at oc ic 0 0) s)); [done|done|].
  intros ic s2 Hic Hs2.
  replace (dense_at oc (ic + 1) 0 0) with (dense_at oc ic KH 0)
    by (unfold dense_index; lia).
  apply (for_range_ind (λ ky s, inv (dense_at oc ic ky 0) s)); [done|done|].
  intros ky s3 Hky Hs3.
  replace (dense_at oc ic (ky + 1) 0) with (dense_at oc ic ky KW)
    by (unfold dense_index; lia).
  apply (for_range_ind (λ kx s, inv (dense_at oc ic ky kx) s)); [done|done|].
  intros kx s4 Hkx Hs4.
  replace (dense_at oc ic ky (kx + 1)) with (dense_at oc ic ky kx + 1)
    by (unfold dense_index; lia).
  rewrite dst_packed_index.
  apply repack_inv_step; [|done]. unfold in_shape. lia.
Qed.

(** Unpacking a buffer that holds every weight at its packed position. *)
Lemma unpack_packed packed :
  length weights = Z.to_nat (OC * C * KH * KW) →
  (∀ oc ic ky kx, shape oc ic ky kx →
     packed !! Z.to_nat (packed_at oc ic ky kx)
       = Some (weights !!! Z.to_nat (dense_at oc ic ky kx))) →
  unpack packed OC C KH KW = weights.
Proof.
  intros Hlen Hget. unfold unpack.
  rewrite <- (take_ge weights (Z.to_nat (dense_at OC 0 0 0)))
    by (unfold dense_index; lia).
  apply (for_range_ind (λ oc dense,
    dense = take (Z.to_nat (dense_at oc 0 0 0)) weights)); [done|done|].
  intros oc d1 Hoc ->.
  replace (dense_at (oc + 1) 0 0 0) with (dense_at oc C 0 0)
    by (unfold dense_index; lia).
  apply (for_range_ind (λ ic dense,
    dense = take (Z.to_nat (dense_at oc ic 0 0)) weights)); [done|done|].
  intros ic d2 Hic ->.
  replace (dense_at oc (ic + 1) 0 0) with (dense_at oc ic KH 0)
    by (unfold dense_index; lia).
  apply (for_range_ind (λ ky dense,
    dense = take (Z.to_nat (dense_at oc ic ky 0)) weights)); [done|done|].
  intros ky d3 Hky ->.
  replace (dense_at oc ic (ky + 1) 0) with (dense_at oc ic ky KW)
    by (unfold dense_index; lia).
  apply (for_range_ind (λ kx dense,
    dense = take (Z.to_nat (dense_at oc ic ky kx)) weights)); [done|done|].
  intros kx d4 Hkx ->.
  assert (shape oc ic ky kx) as Hin by (unfold in_shape; lia).
  pose proof (dense_index_bound _ _ _ _ Hin) as Hb.
  replace (dense_at oc ic ky (kx + 1)) with (dense_at oc ic ky kx + 1)
    by (unfold dense_index; lia).
  rewrite Z2Nat.inj_add, Nat.add_1_r by lia.
  rewrite (list_lookup_total_correct _ _ _ (Hget _ _ _ _ Hin)).
  symmetry. apply take_S_r. apply list_lookup_lookup_total_lt. lia.
Qed.

End repack_layout.

(** C1.  Weight repacking round-trips.  For a dense weight buffer of shape
    [OC, C, KH, KW], with sizes in the range where the [int] arithmetic of the
    repacker is defined, and whatever the newly created buffer held, the
    host-side pass (its memory mapped) returns a buffer of
    [16 * ceil(OC/4) * ceil(C/4) * KH * KW] floats in which
    - the weight [(oc, ic, ky, kx)] sits in lane [4*(ic%4) + (oc%4)] of the
      16-float block at block coordinates [(ic/4, oc/4, ky*KW + kx)];
    - every lane of a block that belongs to an output channel [>= OC] or to
      an input channel [>= C] is zero;
    - unpacking by the inverse index arithmetic gives back the dense buffer. *)
Theorem repack_roundtrip fresh weights OC C KH KW :
  int_defined OC C KH KW →
  length weights = Z.to_nat (OC * C * KH * KW) →
  length fresh = Z.to_nat (kBufSizeNumel OC C KH KW) →
  let packed := kernelNCHW_OCHW_repack_O4C4HWi4o4 true fresh weights OC C KH KW in
  length packed = Z.to_nat (16 * (UP_DIV OC 4 * UP_DIV C 4 * (KH * KW))) ∧
  (∀ oc ic ky kx, in_shape OC C KH KW oc ic ky kx →
     packed !! Z.to_nat (block_offset C KH KW (Z.quot ic 4) (Z.quot oc 4) (ky * KW + kx)
                         + (4 * Z.rem ic 4 + Z.rem oc 4))
       = weights !! Z.to_nat (dense_index C KH KW oc ic ky kx)) ∧
  (∀ c4 o4 k li lo,
     0 ≤ c4 < UP_DIV C 4 → 0 ≤ o4 < UP_DIV OC 4 → 0 ≤ k < KH * KW →
     0 ≤ li < 4 → 0 ≤ lo < 4 →
     OC ≤ 4 * o4 + lo ∨ C ≤ 4 * c4 + li →
     packed !! Z.to_nat (block_offset C KH KW c4 o4 k + (4 * li + lo)) = Some 0) ∧
  unpack packed OC C KH KW = weights.
Proof.
  intros (HOC & HC & HKH & HKW & _) Hw Hfresh packed.
  destruct (repack_inv_run OC C KH KW weights HOC HC HKH HKW fresh)
    as (s & Hs & _ & Hlen & Hset & Hzero); [done|].
  subst packed. rewrite Hs. clear Hs.
  split_and!.
  - rewrite Hlen. f_equal. unfold kBufSizeNumel. rewrite !ALIGN_UP4_UP_DIV. lia.
  - intros oc ic ky kx Hin.
    pose proof (dense_index_bound _ _ _ _ _ _ _ _ Hin) as Hb.
    rewrite (list_lookup_lookup_total_lt weights) by lia.
    apply (Hset oc ic ky kx Hin). lia.
  - intros c4 o4 k li lo Hc4 Ho4 Hk Hli Hlo Hout.
    assert (0 ≤ block_offset C KH KW c4 o4 k + (4 * li + lo) < kBufSizeNumel OC C KH KW) as Hb.
    { unfold block_offset, kBufSizeNumel. rewrite !ALIGN_UP4_UP_DIV.
      assert (0 ≤ o4 * UP_DIV C 4 + c4 < UP_DIV OC 4 * UP_DIV C 4)
        by (apply horner_bound; lia).
      assert (0 ≤ (o4 * UP_DIV C 4 + c4) * (KH * KW) + k
                < UP_DIV OC 4 * UP_DIV C 4 * (KH * KW)) by (apply horner_bound; lia).
      lia. }
    apply Hzero; [lia|].
    intros oc ic ky kx Hin _ Heq.
    apply (padding_not_written OC C KH KW c4 o4 k li lo oc ic ky kx); try done.
    pose proof (packed_index_bound _ _ _ _ _ _ _ _ (in_shape_padded _ _ _ _ _ _ _ _ Hin)).
    lia.
  - apply unpack_packed; try done.
    intros oc ic ky kx Hin. apply Hset; [done|].
    pose proof (dense_index_bound _ _ _ _ _ _ _ _ Hin). lia.
Qed.

Lemma repack_roundtrip_witness :
  let weights := [1; 2; 3; 4; 5; 6; 7; 8; 9; 10] in
  let packed :=
    kernelNCHW_OCHW_repack_O4C4HWi4o4 true (replicate 64 7) weights 1 5 1 2 in
  packed !! 16%nat = Some 2 ∧ unpack packed 1 5 1 2 = weights.
Proof.
  intros weights packed.
  destruct (repack_roundtrip (replicate 64 7) weights 1 5 1 2)
    as (_ & Hput & _ & Hback);
    [unfold int_defined; vm_compute; intuition discriminate | reflexivity | reflexivity |].
  split; [|exact Hback].
  exact (Hput 0 0 0 1 ltac:(unfold in_shape; lia)).
Defined.

(** ** C2: the size of the prepacked weight image *)

Lemma UP_DIV4_ceil x : 0 ≤ x → ceil_div4 x (UP_DIV x 4).
Proof. intros Hx. unfold ceil_div4. pose proof (UP_DIV4_spec x Hx). lia. Qed.

(** C2, as the code has it.  For non-negative [OC] and [C] the prepacked
    weight image has size [(4 * ceil(C/4), ceil(OC/4), KH * KW)]: its width
    is [ALIGN_UP4(C)], four texels for every block of four input channels,
    and not [ceil(C/4)].  [conv2d_prepack_weights_to_image] given an image of
    any other size fails the assertion "Out VImage sizes do not match
    expected" before any dispatch; given an image of that size it returns
    after dispatching the grid [(ceil(C/4), ceil(OC/4), KH * KW)]. *)
Theorem prepack_image_size_contract
    (image : VImage) (weight : list float) (OC C KH KW : Z) (s : State) :
  0 ≤ OC → 0 ≤ C →
  ∃ c4 o4,
    ceil_div4 C c4 ∧ ceil_div4 OC o4 ∧
    imageSize (conv2d_prepack_weights_image_sizes OC C KH KW) = (4 * c4, o4, KH * KW) ∧
    (image_sizes image ≠ (4 * c4, o4, KH * KW) →
       rejected_before_dispatch
         (conv2d_prepack_weights_to_image image weight OC C KH KW s) s
         ["Out VImage sizes do not match expected"]) ∧
    (image_sizes image = (4 * c4, o4, KH * KW) →
       ∃ s', conv2d_prepack_weights_to_image image weight OC C KH KW s = Returns tt s' ∧
             dispatchCommandBuffer_ev c4 o4 (KH * KW) (Some (mkWorkGroupSize 1 1 1))
               ∈ new_events s s').
Proof.
  intros HOC HC. exists (UP_DIV C 4), (UP_DIV OC 4).
  split_and!; [by apply UP_DIV4_ceil..| | |].
  - unfold conv2d_prepack_weights_image_sizes. simpl. by rewrite ALIGN_UP4_UP_DIV.
  - intros Hne. unfold conv2d_prepack_weights_to_image, conv2d_prepack_weights_image_sizes.
    step_ops. rewrite ALIGN_UP4_UP_DIV.
    rewrite bool_decide_eq_false_2 by done. rejected.
  - intros Heq. unfold conv2d_prepack_weights_to_image, conv2d_prepack_weights_image_sizes.
    step_ops. rewrite ALIGN_UP4_UP_DIV.
    rewrite bool_decide_eq_true_2 by done. step_ops.
    eexists. split; [reflexivity|].
    (erewrite new_events_app by trace_eq). in_list.
Qed.

Lemma prepack_image_size_contract_witness :
  ∃ c4 o4,
    ceil_div4 5 c4 ∧ ceil_div4 3 o4 ∧
    imageSize (conv2d_prepack_weights_image_sizes 3 5 2 2) = (4 * c4, o4, 2 * 2) ∧
    (image_sizes (mkVImage (OwnImage 0) (8, 1, 4)) ≠ (4 * c4, o4, 2 * 2) →
       rejected_before_dispatch
         (conv2d_prepack_weights_to_image (mkVImage (OwnImage 0) (8, 1, 4)) []
            3 5 2 2 idle_device) idle_device
         ["Out VImage sizes do not match expected"]) ∧
    (image_sizes (mkVImage (OwnImage 0) (8, 1, 4)) = (4 * c4, o4, 2 * 2) →
       ∃ s', conv2d_prepack_weights_to_image (mkVImage (OwnImage 0) (8, 1, 4)) []
               3 5 2 2 idle_device = Returns tt s' ∧
             dispatchCommandBuffer_ev c4 o4 (2 * 2) (Some (mkWorkGroupSize 1 1 1))
               ∈ new_events idle_device s').
Proof. apply prepack_image_size_contract; lia. Defined.

(** C2 as stated fails.  For [OC = C = KH = KW = 1] the stated size is
    [(ceil(1/4), ceil(1/4), 1) = (1, 1, 1)]; the code computes [(4, 1, 1)],
    rejects an image of the stated size and accepts one of size [(4, 1, 1)]. *)
Lemma prepack_image_width_is_not_ceil :
  ceil_div4 1 1 ∧
  imageSize (conv2d_prepack_weights_image_sizes 1 1 1 1) ≠ (1, 1, 1 * 1) ∧
  rejected_before_dispatch
    (conv2d_prepack_weights_to_image (mkVImage (OwnImage 0) (1, 1, 1 * 1)) [1]
       1 1 1 1 idle_device) idle_device
    ["Out VImage sizes do not match expected"] ∧
  ∃ s', conv2d_prepack_weights_to_image (mkVImage (OwnImage 0) (4, 1, 1)) [1]
          1 1 1 1 idle_device = Returns tt s'.
Proof.
  split_and!.
  - unfold ceil_div4. lia.
  - vm_compute. discriminate.
  - unfold rejected_before_dispatch. do 2 eexists.
    split; [vm_compute; reflexivity|]. split; [in_list|].
    vm_compute. repeat constructor.
  - eexists. vm_compute. reflexivity.
Qed.

(** ** C3: barriers before the dispatch *)

(** C3, at the entry points that break it.  [upsample_nearest2d],
    [adaptive_avg_pool2d] and [max_pool2d] return, whatever their arguments,
    having recorded a dispatch and no barrier that moves an image to general
    access: the output image is written without the transition that every
    other entry point records before its dispatch. *)
Theorem upsample_and_pooling_record_no_output_barrier :
  (∀ output input IH IW OH OW _N _C scaleH scaleW s,
     records_no_output_barrier
       (call_upsample_nearest2d output input IH IW OH OW _N _C scaleH scaleW) s) ∧
  (∀ output input IH IW OH OW IN IC s,
     records_no_output_barrier
       (call_adaptive_avg_pool2d output input IH IW OH OW IN IC) s) ∧
  (∀ output input iH iW oH oW _n _c kH kW dH dW padH padW dilationH dilationW s,
     records_no_output_barrier
       (call_max_pool2d output input iH iW oH oW _n _c kH kW dH dW padH padW
          dilationH dilationW) s).
Proof.
  split_and!; intros; unfold records_no_output_barrier; unfold_calls; step_ops;
    (eexists; split; [reflexivity|]);
    (erewrite new_events_app by trace_eq);
    (split; [repeat first [by apply Exists_cons_hd | apply Exists_cons_tl]
            | repeat constructor]).
Qed.

(** X1.  The barriers the other entry points record.  Whenever one of the
    twelve functions that build a descriptor set returns, it has recorded
    before its dispatch a barrier to shader-read access on every image it
    reads; the barrier that moves the output image to general access is
    recorded before the dispatch by [add], scalar [add] and [mul],
    [conv2d_depthwise], [conv2d_prepack_weights_to_image], [conv2d],
    [clamp], [addmm] and [mean], and by none of [upsample_nearest2d],
    [adaptive_avg_pool2d] and [max_pool2d]. *)
Lemma barriers_recorded_before_dispatch c s s' :
  run c s = Returns tt s' →
  (has_output_barrier c = true ↔
     addImageMemoryBarrierToGeneral_ev (call_output c)
       ∈ before_dispatch (new_events s s')) ∧
  Forall (λ i, addImageMemoryBarrierToShaderRead_ev i
                 ∈ before_dispatch (new_events s s'))
    (call_input_images c).
Proof.
  destruct c; [..|destruct t|]; unfold_calls; step_ops; returned;
    (erewrite new_events_app by trace_eq); simpl;
    (split; [split; [intros Hb; first [discriminate Hb | in_list] | intros Hin]
            | repeat constructor; in_list]);
    try done.
  all: repeat (apply elem_of_cons in Hin as [?|Hin]; [discriminate|]);
    by apply elem_of_nil in Hin.
Qed.

(** ** C4: the order of the descriptor bindings *)

(** C4, as the code has it.  Every entry point that builds a descriptor set
    and returns has uploaded exactly one constant block, and its bindings
    are, from index 0 on: the output; the input images in argument order; the
    auxiliary buffers (the bias, the repacked weights); the constant block.
    The one exception is [addmm] with the additive term [t]: there the
    bindings are the output, [m1], [m2], the constant block at index 3, and
    the image of [t] at index 4. *)
Theorem bindings_follow_designed_order c s s' :
  run c s = Returns tt s' →
  ∃ constBlock,
    const_blocks (new_events s s') = [constBlock] ∧
    bindings (new_events s s') = designed_order c s constBlock.
Proof.
  destruct c; [..|destruct t|];
    cbv beta iota delta
      [run upsample_nearest2d adaptive_avg_pool2d max_pool2d add add_scalar mul
       conv2d_depthwise conv2d_prepack_weights_to_image conv2d clamp addmm mean];
    step_ops; returned;
    (eexists; split; (erewrite new_events_app by trace_eq); reflexivity).
Qed.

Lemma bindings_follow_designed_order_witness :
  let c := call_mean (mkVulkanTensor 0 [1; 4; 1; 1]) (mkVulkanTensor 1 [1; 4; 2; 2]) in
  ∃ constBlock,
    const_blocks (new_events idle_device (final_state (run c idle_device))) = [constBlock] ∧
    bindings (new_events idle_device (final_state (run c idle_device)))
      = designed_order c idle_device constBlock.
Proof.
  intros c. apply bindings_follow_designed_order. vm_compute. reflexivity.
Defined.

(** C4 as stated fails.  [addmm] with the term [t] binds the constant block
    at index 3 and the image of [t], its first input argument, at index 4:
    neither is the constant block last nor are the inputs in argument
    order. *)
Lemma addmm_binds_t_after_constant_block :
  let c := call_addmm (mkVulkanTensor 0 [2; 2]) (Some (mkVulkanTensor 1 [2; 2]))
             (mkVulkanTensor 2 [2; 2]) (mkVulkanTensor 3 [2; 2]) 0 0 in
  ∃ s', run c idle_device = Returns tt s' ∧
        bindings (new_events idle_device s') =
          [(0, BoundImage (TensorImage 0)); (1, BoundImage (TensorImage 2));
           (2, BoundImage (TensorImage 3)); (3, BoundBuffer (OwnBuffer 100));
           (4, BoundImage (TensorImage 1))] ∧
        const_blocks (new_events idle_device s') = [OwnBuffer 100] ∧
        ∀ constBlock,
          bindings (new_events idle_device s')
          ≠ contract_order (call_output c) (call_input_images c)
              (call_buffers c idle_device) constBlock.
Proof.
  intros c. eexists. split; [vm_compute; reflexivity|].
  split_and!; [vm_compute; reflexivity..|].
  intros constBlock. vm_compute. discriminate.
Qed.

(** ** C5: unsupported group counts *)

(** C5.  Every [conv2d] entry point called with [1 < G < C] fails an
    assertion before any dispatch is recorded: the overloads that take a
    prepacked kernel image fail their [G == 1] check, the overloads that take
    a prepacked weight tensor fail the [G == C] check of [conv2d_depthwise]
    (once the bias buffer passed its size check), and the overload that takes
    a host weight fails its own [G == C] check. *)
Theorem conv2d_rejects_unsupported_groups
    (params : Conv2DParams) (output input : VulkanTensor)
    (output_min output_max : option float) (s : State) :
  1 < Conv2D.G params < Conv2D.C params →
  (∀ kernelImage biasBuffer,
     rejected_before_dispatch
       (conv2d output input kernelImage biasBuffer params output_min output_max s) s
       ["Prepacked kernel VImage for non-group conv2d only"]) ∧
  (∀ kernelImage bias,
     rejected_before_dispatch
       (conv2d_image_bias output input kernelImage bias params output_min output_max s) s
       ["Prepacked kernel VImage for non-group conv2d only"]) ∧
  (∀ weight_prepacked bias,
     rejected_before_dispatch
       (conv2d_prepacked_bias output input weight_prepacked bias params
          output_min output_max s) s
       ["params.G == params.C"; bias_size_message params]) ∧
  (∀ weight_prepacked bias,
     rejected_before_dispatch
       (conv2d_prepacked_tensor_bias output input weight_prepacked bias params
          output_min output_max s) s
       ["params.G == params.C"]) ∧
  (∀ weight bias,
     rejected_before_dispatch
       (conv2d_weight output input weight bias params output_min output_max s) s
       ["Vulkan conv2d supports only no-group and depthwise"]).
Proof.
  intros HG.
  assert (bool_decide (Conv2D.G params = 1) = false) as H1
    by (apply bool_decide_eq_false_2; lia).
  assert (bool_decide (Conv2D.G params > 1) = true) as Hgt
    by (apply bool_decide_eq_true_2; lia).
  assert (bool_decide (Conv2D.G params = Conv2D.C params) = false) as HC
    by (apply bool_decide_eq_false_2; lia).
  split_and!.
  - intros kernelImage biasBuffer. unfold conv2d. step_ops. rewrite H1. rejected.
  - intros kernelImage bias. unfold conv2d_image_bias. step_ops. rewrite H1. rejected.
  - intros weight_prepacked bias.
    unfold conv2d_prepacked_bias, bias_buffer, bufferFromOptionalHostData,
      conv2d_depthwise, bias_size_message.
    rewrite Hgt. step_ops.
    destruct (bool_decide (_ ≤ _)); step_ops; [|rejected].
    destruct bias; step_ops; rewrite HC; rejected.
  - intros weight_prepacked bias.
    unfold conv2d_prepacked_tensor_bias, conv2d_depthwise, buffer.
    rewrite Hgt. step_ops.
    rewrite HC. branch; rejected.
  - intros weight bias. unfold conv2d_weight. rewrite Hgt. step_ops. rewrite HC. rejected.
Qed.

Lemma conv2d_rejects_unsupported_groups_witness :
  rejected_before_dispatch
    (conv2d_weight (mkVulkanTensor 0 [1; 4; 2; 2]) (mkVulkanTensor 1 [1; 4; 2; 2])
       [] None (Conv2D.mkParams 1 4 2 2 4 1 1 1 1 0 0 1 1 2 2 2 1 1) None None idle_device) idle_device
    ["Vulkan conv2d supports only no-group and depthwise"].
Proof.
  apply (conv2d_rejects_unsupported_groups
           (Conv2D.mkParams 1 4 2 2 4 1 1 1 1 0 0 1 1 2 2 2 1 1)).
  simpl. lia.
Defined.

(** [conv2d_depthwise] itself refuses every group count other than [C]. *)
Lemma conv2d_depthwise_requires_G_eq_C
    (params : Conv2DParams) (output input weight : VulkanTensor)
    (biasBuffer : VBuffer) (output_min output_max : option float) (s : State) :
  Conv2D.G params ≠ Conv2D.C params →
  conv2d_depthwise output input weight biasBuffer params output_min output_max s
  = AssertionFailed "params.G == params.C" s.
Proof.
  intros HG. unfold conv2d_depthwise. step_ops.
  by rewrite bool_decide_eq_false_2.
Qed.

(** ** C6: tensor + tensor add *)

Lemma copy_to_end4_pad4 (shape : list Z) :
  (length shape ≤ 4)%nat → copy_to_end4 shape = pad4 shape.
Proof.
  destruct shape as [|a [|b [|c [|d [|e l]]]]]; simpl; try lia; reflexivity.
Qed.

(** C6.  Tensor + tensor [add] returns, having dispatched, exactly when the
    output and both inputs have at most 4 dimensions and their shapes,
    left-padded to 4 dimensions with 1s, are all equal.  Otherwise it fails
    one of its four assertions with nothing recorded: a rank above 4 fails
    the assertion on that operand, and with all ranks at most 4 any mismatch
    of the padded shapes fails "Vulkan add expects the same dimensions for
    all operands": no broadcasting happens beyond the padding. *)
Theorem add_requires_equal_padded_shapes
    (output input0 input1 : VulkanTensor) (alpha : float) (s : State) :
  (add_shapes_match output input0 input1 →
     ∃ s', add output input0 input1 alpha s = Returns tt s' ∧
           Exists (λ e, is_dispatch e = true) (new_events s s')) ∧
  (¬ add_shapes_match output input0 input1 →
     ∃ msg, add output input0 input1 alpha s = AssertionFailed msg s ∧
            msg ∈ add_messages) ∧
  (4 < dim output →
     add output input0 input1 alpha s =
       AssertionFailed "Vulkan add is implemented for dim <= 4, output dim > 4" s) ∧
  (dim output ≤ 4 → 4 < dim input0 →
     add output input0 input1 alpha s =
       AssertionFailed "Vulkan add is implemented for dim <= 4, input0 dim > 4" s) ∧
  (dim output ≤ 4 → dim input0 ≤ 4 → 4 < dim input1 →
     add output input0 input1 alpha s =
       AssertionFailed "Vulkan add is implemented for dim <= 4, input1 dim > 4" s) ∧
  (dim output ≤ 4 → dim input0 ≤ 4 → dim input1 ≤ 4 →
     ¬ (pad4 (sizes output) = pad4 (sizes input0) ∧
        pad4 (sizes input0) = pad4 (sizes input1)) →
     add output input0 input1 alpha s =
       AssertionFailed "Vulkan add expects the same dimensions for all operands" s).
Proof.
  unfold add_shapes_match, add_messages, add. step_ops. unfold dim.
  split_and!.
  - intros (Ho & H0 & H1 & Eo & E1).
    rewrite !bool_decide_eq_true_2 by done. step_ops.
    rewrite !copy_to_end4_pad4 by lia.
    rewrite !bool_decide_eq_true_2 by done. step_ops.
    eexists; split; [reflexivity|].
    erewrite new_events_app by trace_eq.
    repeat first [by apply Exists_cons_hd | apply Exists_cons_tl].
  - intros Hno.
    destruct (bool_decide (Z.of_nat (length (sizes output)) ≤ 4)) eqn:Ho;
      step_ops; [|eexists; split; [reflexivity|in_list]].
    destruct (bool_decide (Z.of_nat (length (sizes input0)) ≤ 4)) eqn:H0;
      step_ops; [|eexists; split; [reflexivity|in_list]].
    destruct (bool_decide (Z.of_nat (length (sizes input1)) ≤ 4)) eqn:H1;
      step_ops; [|eexists; split; [reflexivity|in_list]].
    apply bool_decide_eq_true_1 in Ho, H0, H1.
    rewrite !copy_to_end4_pad4 by lia.
    destruct (bool_decide (pad4 (sizes output) = pad4 (sizes input0))) eqn:Eo;
      [apply bool_decide_eq_true_1 in Eo|];
      (destruct (bool_decide (pad4 (sizes input0) = pad4 (sizes input1))) eqn:E1;
       [apply bool_decide_eq_true_1 in E1|]);
      step_ops; try (eexists; split; [reflexivity|in_list]).
    destruct Hno. done.
  - intros Ho. by rewrite bool_decide_eq_false_2 by lia.
  - intros Ho H0. rewrite bool_decide_eq_true_2 by done. step_ops.
    by rewrite bool_decide_eq_false_2 by lia.
  - intros Ho H0 H1. rewrite !bool_decide_eq_true_2 by done. step_ops.
    by rewrite bool_decide_eq_false_2 by lia.
  - intros Ho H0 H1 Hne.
    rewrite !bool_decide_eq_true_2 by done. step_ops.
    rewrite !copy_to_end4_pad4 by lia.
    destruct (bool_decide (pad4 (sizes output) = pad4 (sizes input0))) eqn:Eo;
      [apply bool_decide_eq_true_1 in Eo|];
      (destruct (bool_decide (pad4 (sizes input0) = pad4 (sizes input1))) eqn:E1;
       [apply bool_decide_eq_true_1 in E1|]);
      step_ops; try reflexivity.
    destruct Hne. done.
Qed.

(** No broadcasting of a size-1 dimension: [2,3] + [1,3] is refused. *)
Lemma add_does_not_broadcast :
  add (mkVulkanTensor 0 [2; 3]) (mkVulkanTensor 1 [2; 3]) (mkVulkanTensor 2 [1; 3]) 0 idle_device
  = AssertionFailed "Vulkan add expects the same dimensions for all operands" idle_device.
Proof. reflexivity. Qed.

(** ** C7: reshape_copy *)

Lemma reshape_copy_spec input shape data s :
  storage s !! TensorBuffer (tensor_id input) = Some data →
  Z.of_nat (length data) = sizeof_float * numel input →
  (tensor_id input < next_id s)%nat →
  product shape = numel input →
  numel input ≤ INT_MAX →
  reshape_copy input shape s =
    Returns (mkVulkanTensor (next_id s) shape)
      (mkState (<[TensorBuffer (next_id s) := data]> (storage s))
         (S (next_id s)) (minStorageBufferOffsetAlignment s) (host_mappable s)
         (fresh_memory s)
         (trace s ++
            [sync_image_to_buffer_ev (tensor_id input);
             allocate_storage_ev (next_id s);
             copy_buffer_to_buffer_ev (TensorBuffer (tensor_id input))
               (TensorBuffer (next_id s)) (Z.of_nat (length data)) 0 0])).
Proof.
  intros Hd Hlen Hid Hprod Hmax.
  assert (0 ≤ numel input) as Hpos by (unfold sizeof_float in Hlen; lia).
  unfold reshape_copy, buffer, copy_buffer_to_buffer. step_code.
  rewrite accumulate_int_product, Hprod, to_int32_small by (unfold INT_MAX in *; lia).
  rewrite bool_decide_eq_true_2 by done. step_code.
  rewrite lookup_insert_ne by (intros [= ?]; lia).
  rewrite Hd. step_code. rewrite lookup_insert_eq. step_code.
  rewrite lookup_insert_ne by (intros [= ?]; lia).
  rewrite Hd, lookup_insert_eq.
  assert (numel (mkVulkanTensor (next_id s) shape) = numel input) as -> by done.
  rewrite length_replicate.
  rewrite !bool_decide_eq_true_2 by lia. step_code.
  rewrite insert_insert_eq.
  rewrite drop_0, Nat2Z.id, (take_ge data) by lia.
  rewrite drop_ge by (rewrite length_replicate; lia).
  rewrite app_nil_r. cbn [take]. rewrite app_nil_l.
  rewrite <- !app_assoc. reflexivity.
Qed.

(** The assertion of [reshape_copy] sees the product of the shape only
    through the [int] accumulator. *)
Lemma reshape_copy_refuses input shape s :
  to_int32 (product shape) ≠ numel input →
  reshape_copy input shape s =
    AssertionFailed
      "reshape_copy expects shape with equal number of elements with input Vulkan tensor"
      s.
Proof.
  intros Hne. unfold reshape_copy. step_code.
  rewrite accumulate_int_product. by rewrite bool_decide_eq_false_2.
Qed.

Lemma reshape_copy_passes_assertion input shape s msg s' :
  to_int32 (product shape) = numel input →
  reshape_copy input shape s ≠ AssertionFailed msg s'.
Proof.
  intros Heq. unfold reshape_copy, buffer, copy_buffer_to_buffer. step_code.
  rewrite accumulate_int_product, bool_decide_eq_true_2 by done. step_code.
  repeat (match goal with
          | |- context [match ?m !! ?k with _ => _ end] => destruct (m !! k)
          | |- context [bool_decide ?P] => destruct (bool_decide P)
          end; step_code); discriminate.
Qed.

(** Past the assertion the destination is allocated for the requested shape
    and receives one copy of the whole input buffer. *)
Lemma reshape_copy_accepts input shape (data : list byte) s :
  to_int32 (product shape) = numel input →
  storage s !! TensorBuffer (tensor_id input) = Some data →
  Z.of_nat (length data) = sizeof_float * numel input →
  (tensor_id input < next_id s)%nat →
  numel input ≤ product shape →
  ∃ out s',
    reshape_copy input shape s = Returns out s' ∧
    sizes out = shape ∧
    copies (new_events s s') =
      [(TensorBuffer (tensor_id input), TensorBuffer (tensor_id out),
        Z.of_nat (length data), 0, 0)] ∧
    storage s' !! TensorBuffer (tensor_id out) =
      Some (data ++ replicate
                      (Z.to_nat (sizeof_float * (product shape - numel input))) 0).
Proof.
  intros Heq Hd Hlen Hid Hle.
  assert (0 ≤ numel input) by (unfold sizeof_float in Hlen; lia).
  do 2 eexists. split_and!.
  - unfold reshape_copy, buffer, copy_buffer_to_buffer. step_code.
    rewrite accumulate_int_product, bool_decide_eq_true_2 by done. step_code.
    rewrite lookup_insert_ne by (intros [= ?]; lia).
    rewrite Hd. step_code. rewrite lookup_insert_eq. step_code.
    rewrite lookup_insert_ne by (intros [= ?]; lia).
    rewrite Hd, lookup_insert_eq.
    assert (numel (mkVulkanTensor (next_id s) shape) = product shape) as -> by done.
    rewrite length_replicate.
    unfold sizeof_float in *.
    rewrite !bool_decide_eq_true_2 by lia. step_code.
    reflexivity.
  - done.
  - by erewrite new_events_app by trace_eq.
  - cbn [storage tensor_id]. rewrite lookup_insert_eq. f_equal.
    rewrite drop_0, Nat2Z.id, (take_ge data) by lia.
    cbn [take]. rewrite app_nil_l. f_equal.
    rewrite Z.add_0_l, Nat2Z.id, drop_replicate. f_equal.
    unfold sizeof_float in *. lia.
Qed.

(** C7, where the code departs from it.  The element count of the requested
    shape is accumulated in an [int] (the initial value [1] handed to
    [std::accumulate] is an [int]), so the assertion of [reshape_copy]
    compares with [numel] the product of the shape modulo [2^32], read as
    signed, and not the product:
    - the assertion fails exactly when that truncated product differs from
      [numel];
    - a shape whose product exceeds [numel] by a multiple of [2^32] passes
      it: the call returns a tensor of that shape, with more elements than
      the input, whose new storage holds the input's bytes followed by
      zeros;
    - a shape whose product equals [numel] is refused when that count does
      not fit an [int], the identity reshape included. *)
Theorem reshape_copy_checks_truncated_product
    (input : VulkanTensor) (shape : list Z) (s : State) :
  (to_int32 (product shape) ≠ numel input →
     reshape_copy input shape s =
       AssertionFailed
         "reshape_copy expects shape with equal number of elements with input Vulkan tensor"
         s) ∧
  (to_int32 (product shape) = numel input →
     ∀ msg s', reshape_copy input shape s ≠ AssertionFailed msg s') ∧
  (∀ (k : Z) (data : list byte),
     0 < k → product shape = numel input + k * 2 ^ 32 →
     - 2 ^ 31 ≤ numel input ≤ INT_MAX →
     storage s !! TensorBuffer (tensor_id input) = Some data →
     Z.of_nat (length data) = sizeof_float * numel input →
     (tensor_id input < next_id s)%nat →
     ∃ out s',
       reshape_copy input shape s = Returns out s' ∧
       sizes out = shape ∧
       numel out ≠ numel input ∧
       storage s' !! TensorBuffer (tensor_id out) =
         Some (data ++ replicate (Z.to_nat (sizeof_float * (k * 2 ^ 32))) 0)) ∧
  (product shape = numel input → ¬ (- 2 ^ 31 ≤ numel input ≤ INT_MAX) →
     reshape_copy input shape s =
       AssertionFailed
         "reshape_copy expects shape with equal number of elements with input Vulkan tensor"
         s).
Proof.
  split_and!.
  - apply reshape_copy_refuses.
  - intros Heq msg s'. by apply reshape_copy_passes_assertion.
  - intros k data Hk Hprod Hrange Hd Hlen Hid.
    assert (to_int32 (product shape) = numel input) as Heq.
    { rewrite <- (to_int32_small (numel input)) by done.
      apply to_int32_eqm. rewrite Hprod. apply Z_mod_plus_full. }
    destruct (reshape_copy_accepts input shape data s Heq Hd Hlen Hid)
      as (out & s' & Hrun & Hsz & _ & Hsto); [lia|].
    exists out, s'. split_and!; [done..| |].
    + unfold numel at 1. rewrite Hsz, Hprod. lia.
    + rewrite Hsto. do 4 f_equal. lia.
  - intros Hprod Hout. apply reshape_copy_refuses.
    rewrite Hprod. intros Heq. apply Hout. rewrite <- Heq. apply to_int32_range.
Qed.

(** C7 as stated fails in both directions.  For an input of sizes [[2; 3]]
    the shape [[3; 4294967298]], whose product is 12884901894 and not 6,
    passes the assertion and a tensor of that shape is returned; for an
    input of sizes [[65536; 65536]] the reshape to its own shape, whose
    product is [numel], is refused. *)
Lemma reshape_copy_accepts_wrong_element_count :
  let input := mkVulkanTensor 0 [2; 3] in
  let shape := [3; 4294967298] in
  let s := device_with [(0%nat, seqZ 1 24)] in
  let big := mkVulkanTensor 1 [65536; 65536] in
  product shape ≠ numel input ∧
  (∃ out s', reshape_copy input shape s = Returns out s' ∧
             sizes out = shape ∧ numel out ≠ numel input) ∧
  product (sizes big) = numel big ∧
  reshape_copy big (sizes big) s =
    AssertionFailed
      "reshape_copy expects shape with equal number of elements with input Vulkan tensor"
      s.
Proof.
  intros input shape s big. split_and!.
  - vm_compute. discriminate.
  - destruct (reshape_copy_accepts input shape (seqZ 1 24) s)
      as (out & s' & Hrun & Hsz & _);
      [vm_compute; reflexivity | vm_compute; reflexivity | reflexivity
      | simpl; lia | vm_compute; discriminate |].
    exists out, s'. split_and!; [done..|].
    unfold numel at 1. rewrite Hsz. vm_compute. discriminate.
  - reflexivity.
  - apply reshape_copy_refuses. vm_compute. discriminate.
Qed.

(** X4.  Within the range of [int] the check is the one of the
    specification.  For an input whose buffer holds its [numel] floats and a requested shape
    whose element count fits an [int], [reshape_copy] fails its assertion
    when the product of the shape differs from [numel]; otherwise it returns
    a new tensor of that shape whose newly allocated storage received the
    input's bytes by one copy of the whole buffer (the input keeps its own),
    and reshaping the result back to the input's shape yields again exactly
    the original bytes. *)
Theorem reshape_copy_roundtrip
    (input : VulkanTensor) (shape : list Z) (data : list byte) (s : State) :
  storage s !! TensorBuffer (tensor_id input) = Some data →
  Z.of_nat (length data) = sizeof_float * numel input →
  (tensor_id input < next_id s)%nat →
  numel input ≤ INT_MAX →
  - 2 ^ 31 ≤ product shape ≤ INT_MAX →
  (product shape ≠ numel input →
     reshape_copy input shape s =
       AssertionFailed
         "reshape_copy expects shape with equal number of elements with input Vulkan tensor"
         s) ∧
  (product shape = numel input →
     ∃ out1 s1 out2 s2,
       reshape_copy input shape s = Returns out1 s1 ∧
       sizes out1 = shape ∧
       tensor_id out1 ≠ tensor_id input ∧
       storage s1 !! TensorBuffer (tensor_id out1) = Some data ∧
       storage s1 !! TensorBuffer (tensor_id input) = Some data ∧
       copies (new_events s s1) =
         [(TensorBuffer (tensor_id input), TensorBuffer (tensor_id out1),
           Z.of_nat (length data), 0, 0)] ∧
       reshape_copy out1 (sizes input) s1 = Returns out2 s2 ∧
       sizes out2 = sizes input ∧
       storage s2 !! TensorBuffer (tensor_id out2) = Some data ∧
       copies (new_events s1 s2) =
         [(TensorBuffer (tensor_id out1), TensorBuffer (tensor_id out2),
           Z.of_nat (length data), 0, 0)]).
Proof.
  intros Hd Hlen Hid Hmax Hrange. split.
  - intros Hne. unfold reshape_copy. step_code.
    rewrite accumulate_int_product, to_int32_small by done.
    by rewrite bool_decide_eq_false_2.
  - intros Hprod.
    pose proof (reshape_copy_spec input shape data s Hd Hlen Hid Hprod Hmax) as H1.
    set (out1 := mkVulkanTensor (next_id s) shape) in *.
    set (s1 := mkState _ _ _ _ _ _) in H1.
    assert (storage s1 !! TensorBuffer (tensor_id out1) = Some data) as Hd1
      by apply lookup_insert_eq.
    assert (numel out1 = numel input) as Hnumel by done.
    pose proof (reshape_copy_spec out1 (sizes input) data s1 Hd1
                  ltac:(by rewrite Hnumel) ltac:(simpl; lia) ltac:(done)
                  ltac:(by rewrite Hnumel)) as H2.
    eexists out1, s1, _, _. split_and!.
    + exact H1.
    + done.
    + simpl. lia.
    + exact Hd1.
    + unfold s1; cbn [storage]. rewrite lookup_insert_ne; [done|]. intros [= ?]. lia.
    + by erewrite new_events_app by reflexivity.
    + exact H2.
    + done.
    + apply lookup_insert_eq.
    + by erewrite new_events_app by reflexivity.
Qed.

Lemma reshape_copy_roundtrip_witness :
  let input := mkVulkanTensor 0 [2; 3] in
  let data := seqZ 1 24 in
  let s := device_with [(0%nat, data)] in
  ∃ out1 s1 out2 s2,
    reshape_copy input [3; 2] s = Returns out1 s1 ∧
    sizes out1 = [3; 2] ∧
    tensor_id out1 ≠ tensor_id input ∧
    storage s1 !! TensorBuffer (tensor_id out1) = Some data ∧
    storage s1 !! TensorBuffer (tensor_id input) = Some data ∧
    copies (new_events s s1) =
      [(TensorBuffer (tensor_id input), TensorBuffer (tensor_id out1),
        Z.of_nat (length data), 0, 0)] ∧
    reshape_copy out1 (sizes input) s1 = Returns out2 s2 ∧
    sizes out2 = sizes input ∧
    storage s2 !! TensorBuffer (tensor_id out2) = Some data ∧
    copies (new_events s1 s2) =
      [(TensorBuffer (tensor_id out1), TensorBuffer (tensor_id out2),
        Z.of_nat (length data), 0, 0)].
Proof.
  intros input data s.
  apply (reshape_copy_roundtrip input [3; 2] data s);
    [vm_compute; reflexivity | reflexivity | simpl; lia
    | vm_compute; discriminate | vm_compute; split; discriminate | reflexivity].
Defined.

(** ** C8: cat *)

Lemma cat_step_spec output off t d dout s :
  storage s !! TensorBuffer (tensor_id t) = Some d →
  storage s !! TensorBuffer (tensor_id output) = Some dout →
  Z.of_nat (length d) = sizeof_float * numel t →
  0 ≤ off → off + sizeof_float * numel t ≤ Z.of_nat (length dout) →
  Z.of_nat (length dout) < 2 ^ 64 →
  cat_step output off t s =
    Returns (off + sizeof_float * numel t)
      (mkState
         (<[TensorBuffer (tensor_id output) :=
              take (Z.to_nat off) dout ++ d
              ++ drop (Z.to_nat (off + sizeof_float * numel t)) dout]> (storage s))
         (next_id s) (minStorageBufferOffsetAlignment s) (host_mappable s)
         (fresh_memory s)
         (trace s ++ cat_events (tensor_id output) off [t])).
Proof.
  intros Hd Hout Hlen Hoff Hfit Hmax.
  unfold cat_step, buffer, copy_buffer_to_buffer. step_code.
  rewrite Hd. step_code. rewrite Hout. step_code. rewrite Hd, Hout.
  rewrite (to_uint64_small (sizeof_float * numel t)) by lia.
  rewrite to_uint64_small by lia.
  rewrite !bool_decide_eq_true_2 by lia. step_code.
  rewrite drop_0, (take_ge d) by lia.
  cbn [cat_events]. rewrite <- ?app_assoc. reflexivity.
Qed.

Lemma splice_splice (dout d rest : list byte) (o L : nat) :
  (o + length d + L ≤ length dout)%nat →
  take (o + length d) (take o dout ++ d ++ drop (o + length d) dout)
    ++ rest
    ++ drop (o + length d + L) (take o dout ++ d ++ drop (o + length d) dout)
  = take o dout ++ (d ++ rest) ++ drop (o + length d + L) dout.
Proof.
  intros Hfit.
  assert (length (take o dout) = o) as Ho by (rewrite length_take; lia).
  rewrite (app_assoc (take o dout) d).
  rewrite take_app_length' by (rewrite length_app; lia).
  rewrite drop_app_ge by (rewrite length_app; lia).
  rewrite length_app, Ho, drop_drop.
  rewrite <- !app_assoc. do 3 f_equal. f_equal. lia.
Qed.

Lemma cat_loop output inputs :
  ∀ datas off dout s,
    Forall2 (cat_input s output) inputs datas →
    storage s !! TensorBuffer (tensor_id output) = Some dout →
    0 ≤ off →
    off + Z.of_nat (length (concat datas)) ≤ Z.of_nat (length dout) →
    Z.of_nat (length dout) < 2 ^ 64 →
    ∃ s',
      for_each (cat_step output) inputs off s
        = Returns (off + Z.of_nat (length (concat datas))) s' ∧
      storage s' =
        <[TensorBuffer (tensor_id output) :=
            take (Z.to_nat off) dout ++ concat datas
            ++ drop (Z.to_nat (off + Z.of_nat (length (concat datas)))) dout]>
          (storage s) ∧
      trace s' = trace s ++ cat_events (tensor_id output) off inputs.
Proof.
  induction inputs as [|t ts IH]; intros datas off dout s Hin Hout Hoff Hfit Hmax.
  - apply Forall2_nil_inv_l in Hin as ->. simpl.
    exists s. split_and!.
    + by rewrite Z.add_0_r.
    + rewrite Z.add_0_r, take_drop. by rewrite insert_id.
    + by rewrite app_nil_r.
  - apply Forall2_cons_inv_l in Hin as (d & ds & (Hd & Hlen & Hpos & Hne) & Hrest & ->).
    simpl in Hfit. rewrite length_app in Hfit.
    cbn [for_each]. step_code.
    rewrite (cat_step_spec output off t d dout s) by (try done; lia).
    set (dout1 := take (Z.to_nat off) dout ++ d
                  ++ drop (Z.to_nat (off + sizeof_float * numel t)) dout).
    set (s1 := mkState _ _ _ _ _ _).
    assert (length dout1 = length dout) as Hlen1.
    { unfold dout1. rewrite !length_app, length_take, length_drop. lia. }
    destruct (IH ds (off + sizeof_float * numel t) dout1 s1) as (s' & Hrun & Hsto & Htr).
    + eapply Forall2_impl; [exact Hrest|].
      intros t' d' (Hd' & Hlen' & Hpos' & Hne'). split_and!; try done.
      unfold s1; cbn [storage]. rewrite lookup_insert_ne; [done|congruence].
    + unfold s1; cbn [storage]. apply lookup_insert_eq.
    + lia.
    + lia.
    + lia.
    + exists s'. split_and!.
      * rewrite Hrun. f_equal. simpl. rewrite length_app. lia.
      * rewrite Hsto. unfold s1; cbn [storage]. rewrite insert_insert_eq.
        f_equal. unfold dout1. simpl concat.
        replace (Z.to_nat (off + sizeof_float * numel t))
          with (Z.to_nat off + length d)%nat by lia.
        replace (Z.to_nat (off + sizeof_float * numel t + Z.of_nat (length (concat ds))))
          with (Z.to_nat off + length d + length (concat ds))%nat by lia.
        replace (Z.to_nat (off + Z.of_nat (length (d ++ concat ds))))
          with (Z.to_nat off + length d + length (concat ds))%nat
          by (rewrite length_app; lia).
        apply splice_splice. lia.
      * rewrite Htr. unfold s1; cbn [trace cat_events].
        by rewrite <- app_assoc.
Qed.

Lemma copy_offsets_cat_events_cons out off t ts :
  copy_offsets (cat_events out off (t :: ts))
  = off :: copy_offsets (cat_events out (off + sizeof_float * numel t) ts).
Proof. reflexivity. Qed.

Lemma copy_offsets_cat_events_ge out off inputs :
  Forall (λ t, 0 < numel t) inputs →
  Forall (λ o, off ≤ o) (copy_offsets (cat_events out off inputs)).
Proof.
  revert off. induction inputs as [|t ts IH]; intros off Hpos; [constructor|].
  apply Forall_cons in Hpos as [Ht Hts].
  rewrite copy_offsets_cat_events_cons. constructor; [done|].
  eapply Forall_impl; [apply (IH (off + sizeof_float * numel t) Hts)|].
  unfold sizeof_float. simpl. lia.
Qed.

Lemma copy_offsets_cat_events_sorted out off inputs :
  Forall (λ t, 0 < numel t) inputs →
  StronglySorted Z.lt (copy_offsets (cat_events out off inputs)).
Proof.
  revert off. induction inputs as [|t ts IH]; intros off Hpos; [constructor|].
  pose proof Hpos as Hpos'. apply Forall_cons in Hpos' as [Ht Hts].
  rewrite copy_offsets_cat_events_cons. constructor; [by apply IH|].
  eapply Forall_impl;
    [apply (copy_offsets_cat_events_ge out (off + sizeof_float * numel t) ts Hts)|].
  unfold sizeof_float. simpl. lia.
Qed.

Lemma copy_offsets_cat_events_lookup s output out off inputs datas i d :
  Forall2 (cat_input s output) inputs datas →
  datas !! i = Some d →
  copy_offsets (cat_events out off inputs) !! i
    = Some (off + Z.of_nat (length (concat (take i datas)))).
Proof.
  intros Hin. revert off i.
  induction Hin as [|t d' ts ds (_ & Hlen & _) _ IH]; intros off i Hi; [done|].
  rewrite copy_offsets_cat_events_cons.
  destruct i as [|i]; simpl in *.
  - f_equal. lia.
  - rewrite (IH _ _ Hi). f_equal. rewrite length_app. lia.
Qed.

Lemma concat_lookup_range (datas : list (list byte)) i d rest :
  datas !! i = Some d →
  take (length d) (drop (length (concat (take i datas))) (concat datas ++ rest)) = d.
Proof.
  revert i. induction datas as [|x ds IH]; intros i Hi; [done|].
  destruct i as [|i]; simpl in *.
  - injection Hi as ->. rewrite drop_0, <- app_assoc. by rewrite take_app_length.
  - rewrite length_app, <- app_assoc, drop_app_ge by lia.
    replace (length x + length (concat (take i ds)) - length x)%nat
      with (length (concat (take i ds))) by lia.
    by apply IH.
Qed.

(** C8.  [cat] over non-empty inputs, each holding its [numel] floats in its
    buffer and none of them the output, with an output buffer large enough:
    it returns the output after recording, per input and in order, the
    resynchronisation to buffer form and one buffer-to-buffer copy of
    [sizeof(float) * numel] bytes from offset 0; the destination offsets are
    strictly increasing, each the sum of the sizes of the inputs before, and
    the bytes of the output from the offset of input [i] on are the data of
    input [i] (for inputs [a], [b]: bytes [[0, sizeof a)] are [a]'s and bytes
    [[sizeof a, sizeof a + sizeof b)] are [b]'s). *)
Theorem cat_copies_inputs_at_increasing_offsets
    (output : VulkanTensor) (inputs : list VulkanTensor)
    (datas : list (list byte)) (dout : list byte) (dim : Z) (s : State) :
  Forall2 (cat_input s output) inputs datas →
  storage s !! TensorBuffer (tensor_id output) = Some dout →
  (length (concat datas) ≤ length dout)%nat →
  Z.of_nat (length dout) < 2 ^ 64 →
  ∃ s' dout',
    cat output inputs dim s = Returns output s' ∧
    storage s' !! TensorBuffer (tensor_id output) = Some dout' ∧
    new_events s s' = cat_events (tensor_id output) 0 inputs ∧
    StronglySorted Z.lt (copy_offsets (new_events s s')) ∧
    ∀ i d, datas !! i = Some d →
      ∃ offset,
        copy_offsets (new_events s s') !! i = Some offset ∧
        offset = Z.of_nat (length (concat (take i datas))) ∧
        take (length d) (drop (Z.to_nat offset) dout') = d.
Proof.
  intros Hin Hout Hfit Hmax.
  destruct (cat_loop output inputs datas 0 dout s) as (s' & Hrun & Hsto & Htr);
    [done|done|lia|lia|done|].
  assert (new_events s s' = cat_events (tensor_id output) 0 inputs) as Hev
    by (by apply new_events_app).
  exists s', (concat datas ++ drop (length (concat datas)) dout).
  split_and!.
  - unfold cat. step_code. by rewrite Hrun.
  - rewrite Hsto, lookup_insert_eq. simpl. do 3 f_equal. lia.
  - done.
  - rewrite Hev. apply copy_offsets_cat_events_sorted.
    clear -Hin. induction Hin as [|???? (_ & _ & ? & _)]; by constructor.
  - intros i d Hi. eexists. split_and!.
    + rewrite Hev. by eapply copy_offsets_cat_events_lookup.
    + lia.
    + rewrite Z.add_0_l, Nat2Z.id. by apply concat_lookup_range.
Qed.

Lemma cat_copies_inputs_at_increasing_offsets_witness :
  let output := mkVulkanTensor 0 [3] in
  let a := mkVulkanTensor 1 [1] in
  let b := mkVulkanTensor 2 [2] in
  let da := [1; 2; 3; 4] in
  let db := [5; 6; 7; 8; 9; 10; 11; 12] in
  let s := device_with [(0%nat, replicate 12 0); (1%nat, da); (2%nat, db)] in
  ∃ s' dout',
    cat output [a; b] 0 s = Returns output s' ∧
    storage s' !! TensorBuffer (tensor_id output) = Some dout' ∧
    new_events s s' = cat_events (tensor_id output) 0 [a; b] ∧
    StronglySorted Z.lt (copy_offsets (new_events s s')) ∧
    ∀ i d, [da; db] !! i = Some d →
      ∃ offset,
        copy_offsets (new_events s s') !! i = Some offset ∧
        offset = Z.of_nat (length (concat (take i [da; db]))) ∧
        take (length d) (drop (Z.to_nat offset) dout') = d.
Proof.
  intros output a b da db s.
  apply (cat_copies_inputs_at_increasing_offsets output [a; b] [da; db]
           (replicate 12 0) 0 s).
  - repeat constructor; try (vm_compute; congruence).
  - vm_compute. reflexivity.
  - simpl. lia.
  - vm_compute. reflexivity.
Defined.

(** ** C9: cat and its dim argument *)

Lemma cat_loop_never_asserts output inputs off s msg s' :
  for_each (cat_step output) inputs off s ≠ AssertionFailed msg s'.
Proof.
  revert off s. induction inputs as [|t ts IH]; intros off s; [done|].
  cbn [for_each]. step_code.
  destruct (cat_step output off t s) as [off1 s1| |] eqn:Hstep; [apply IH| |done].
  exfalso. revert Hstep.
  unfold cat_step, buffer, copy_buffer_to_buffer. step_code.
  repeat (match goal with
          | |- context [match ?m !! ?k with _ => _ end] => destruct (m !! k)
          | |- context [bool_decide ?P] => destruct (bool_decide P)
          end; step_code); discriminate.
Qed.

(** C9.  [cat] does not depend on its [dim] argument: two calls that differ
    only in [dim] have the same outcome, the same recorded commands and the
    same resulting buffers, and no call is ever refused by an assertion. *)
Theorem cat_ignores_dim (output : VulkanTensor) (inputs : list VulkanTensor)
    (dim1 dim2 : Z) (s : State) :
  cat output inputs dim1 s = cat output inputs dim2 s ∧
  ∀ msg s', cat output inputs dim1 s ≠ AssertionFailed msg s'.
Proof.
  split; [reflexivity|].
  intros msg s'. unfold cat. step_code.
  destruct (for_each _ _ _ _) eqn:Hloop; try done.
  by apply cat_loop_never_asserts in Hloop.
Qed.

(** ** C10: scalar add and mul *)

(** C10.  Scalar [add] and [mul] read sizes 2 and 3 of the input without any
    check of its rank.  With fewer than 4 dimensions the read is out of range
    (the behaviour is undefined, nothing is recorded).  With exactly 4
    dimensions [[n; c; h; w]] they dispatch the grid [(w, h, n*c)], the
    channel count being the product of the two leading sizes as the [int]
    accumulator holds it.  With more than 4 they still return, reading sizes
    2 and 3 as [H] and [W] while the channel count is the product of all
    sizes but the last two.  No input makes them fail an assertion. *)
Theorem scalar_ops_index_sizes_unchecked
    (output input : VulkanTensor) (k : float) (s : State) :
  ((length (sizes input) < 4)%nat →
     add_scalar output input k s = Undefined s ∧
     mul output input k s = Undefined s) ∧
  (∀ n c h w, sizes input = [n; c; h; w] →
     ∃ s1 s2,
       add_scalar output input k s = Returns tt s1 ∧
       mul output input k s = Returns tt s2 ∧
       dispatchCommandBuffer_ev w h (to_int32 (n * c))
         (Some (mkWorkGroupSize 8 8 1)) ∈ new_events s s1 ∧
       dispatchCommandBuffer_ev w h (to_int32 (n * c))
         (Some (mkWorkGroupSize 8 8 1)) ∈ new_events s s2) ∧
  ((4 < length (sizes input))%nat →
     ∃ s1 s2,
       add_scalar output input k s = Returns tt s1 ∧
       mul output input k s = Returns tt s2 ∧
       dispatchCommandBuffer_ev (sizes input !!! 3%nat) (sizes input !!! 2%nat)
         (to_int32 (product (take (length (sizes input) - 2) (sizes input))))
         (Some (mkWorkGroupSize 8 8 1)) ∈ new_events s s1 ∧
       dispatchCommandBuffer_ev (sizes input !!! 3%nat) (sizes input !!! 2%nat)
         (to_int32 (product (take (length (sizes input) - 2) (sizes input))))
         (Some (mkWorkGroupSize 8 8 1)) ∈ new_events s s2) ∧
  (∀ msg s', add_scalar output input k s ≠ AssertionFailed msg s' ∧
             mul output input k s ≠ AssertionFailed msg s').
Proof.
  unfold add_scalar, mul. generalize (sizes input) as sz. intros sz.
  split_and!.
  - intros Hlen.
    destruct sz as [|a [|b [|c [|d l]]]]; simpl in Hlen; try lia; by split.
  - intros n c h w ->. step_ops. simpl.
    replace (to_int32 (n * c)) with (accumulate_int [n; c])
      by (rewrite accumulate_int_product; f_equal; simpl; lia).
    do 2 eexists. split_and!; try reflexivity;
      (erewrite new_events_app by trace_eq); in_list.
  - intros Hlen. rewrite <- accumulate_int_product.
    destruct sz as [|a [|b [|c [|d [|e l]]]]]; simpl in Hlen; try lia.
    step_ops.
    rewrite bool_decide_eq_true_2 by (simpl; lia).
    do 2 eexists. split_and!; try reflexivity;
      (erewrite new_events_app by trace_eq); in_list.
  - intros msg s'. step_ops. split; repeat branch; discriminate.
Qed.

(** Where tensor + tensor [add] pads a 2-D shape, the scalar form reads past
    its end. *)
Lemma scalar_add_rank2_undefined :
  (∃ s', add (mkVulkanTensor 0 [2; 3]) (mkVulkanTensor 1 [2; 3])
           (mkVulkanTensor 2 [2; 3]) 0 idle_device = Returns tt s') ∧
  add_scalar (mkVulkanTensor 0 [2; 3]) (mkVulkanTensor 1 [2; 3]) 0 idle_device = Undefined idle_device ∧
  mul (mkVulkanTensor 0 [2; 3]) (mkVulkanTensor 1 [2; 3]) 0 idle_device = Undefined idle_device.
Proof. split_and!; [eexists|..]; vm_compute; reflexivity. Qed.

(** On a 5-D input the scalar form reads sizes 2 and 3 as H and W, although
    size 2 is also folded into C and the last size is never read. *)
Lemma scalar_add_rank5_geometry :
  ∃ s', add_scalar (mkVulkanTensor 0 [2; 3; 4; 5; 6])
          (mkVulkanTensor 1 [2; 3; 4; 5; 6]) 0 idle_device = Returns tt s' ∧
        dispatchCommandBuffer_ev 5 4 24 (Some (mkWorkGroupSize 8 8 1))
          ∈ new_events idle_device s' ∧
        5 * 4 * 24 ≠ numel (mkVulkanTensor 1 [2; 3; 4; 5; 6]).
Proof.
  eexists. split_and!; [vm_compute; reflexivity| |by vm_compute].
  vm_compute. in_list.
Qed.

(** * Part III: further properties of the operators *)

(** ** The protocol of a dispatch *)

Lemma barriers_recorded_before_dispatch_witness :
  let c := call_addmm (mkVulkanTensor 0 [2; 2]) (Some (mkVulkanTensor 1 [2; 2]))
             (mkVulkanTensor 2 [2; 2]) (mkVulkanTensor 3 [2; 2]) 0 0 in
  let s' := final_state (run c idle_device) in
  (has_output_barrier c = true ↔
     addImageMemoryBarrierToGeneral_ev (call_output c)
       ∈ before_dispatch (new_events idle_device s')) ∧
  Forall (λ i, addImageMemoryBarrierToShaderRead_ev i
                 ∈ before_dispatch (new_events idle_device s'))
    (call_input_images c).
Proof.
  intros c s'. apply (barriers_recorded_before_dispatch c idle_device s').
  vm_compute. reflexivity.
Defined.

(** X2.  The descriptor set of a call lives exactly as long as the call.  A
    call of any of the twelve functions that build a descriptor set, when it
    returns, has created one descriptor set layout and pool and opened one
    command buffer before its dispatch, has recorded one dispatch, and after
    it only the end of the command buffer, the blocking submission and the
    destruction of the pool and of the layout, in this order.  A call that
    fails an assertion or reads a size out of range has created no
    descriptor set and opened no command buffer: every check precedes the
    acquisition, so nothing is left to release. *)
Theorem descriptor_set_lifecycle c s :
  match run c s with
  | Returns _ s' =>
      (∃ x y z wgs,
         from_dispatch (new_events s s') =
           [dispatchCommandBuffer_ev x y z wgs; endCommandBuffer_ev;
            submitAndWaitCommandBuffer_ev; vkDestroyDescriptorPool_ev;
            vkDestroyDescriptorSetLayout_ev]) ∧
      (∃ tys, descriptor_sets (before_dispatch (new_events s s')) = [tys]) ∧
      createCommandBuffer_ev ∈ before_dispatch (new_events s s')
  | AssertionFailed _ s' | Undefined s' =>
      descriptor_sets (new_events s s') = [] ∧
      createCommandBuffer_ev ∉ new_events s s'
  end.
Proof.
  destruct c; [..|destruct t|]; unfold_calls; step_ops; branches;
    (erewrite !new_events_app by trace_eq);
    first
      [ split; [reflexivity|]; intros Hin;
        repeat (apply elem_of_cons in Hin as [?|Hin]; [discriminate|]);
        by apply elem_of_nil in Hin
      | split_and!; [by do 4 eexists | by eexists | simpl; in_list] ].
Qed.

(** X3.  The descriptor types a call declares are those of the resources it
    binds.  For a call whose buffer arguments exist already, the bindings
    are made at the indices [0, 1, 2, ...] in order, one per declared
    descriptor type, and at each index the declared type is the kind of the
    resource bound there: a storage image where [bindStorageImage] binds the
    output, a combined image sampler where [bindShaderRead] binds an input, a
    uniform buffer where the constant block is bound and a storage buffer
    where another buffer (the bias, the repacked weights) is bound.  This
    holds for [addmm] with the term [t] as well, whose constant block sits
    at index 3 and whose declared types follow the same order. *)
Theorem descriptor_types_match_bindings c s s' :
  Forall (existing_buffer s) (call_buffer_args c) →
  run c s = Returns tt s' →
  ∃ tys,
    descriptor_sets (new_events s s') = [tys] ∧
    omap (bound_type (const_blocks (new_events s s'))) (new_events s s')
      = imap (λ i ty, (Z.of_nat i, ty)) tys.
Proof.
  intros Hb. destruct s as [sto nid al hm fm tr].
  destruct c; [..|destruct t|];
    try (apply Forall_cons in Hb as [Hb _];
         destruct biasBuffer as [[tid|bid] bsz];
         unfold existing_buffer in Hb; cbn [buffer_ref next_id] in Hb);
    unfold_calls; step_ops; branches;
    try (intros ?; discriminate); intros [= <-];
    (erewrite !new_events_app by trace_eq); eexists; (split; [reflexivity|]);
    cbn [omap list_omap const_blocks bound_type buffer_ref imap app];
    repeat (match goal with
            | |- context [bool_decide (?b ∈ ?l)] =>
                first [ rewrite (bool_decide_eq_true_2 (b ∈ l)) by in_list
                      | rewrite (bool_decide_eq_false_2 (b ∈ l))
                          by (intros Hin; apply list_elem_of_singleton in Hin;
                              first [discriminate | injection Hin; lia]) ]
            end); reflexivity.
Qed.

Lemma descriptor_types_match_bindings_witness :
  let c := call_conv2d (mkVulkanTensor 0 [1; 4; 2; 2]) (mkVulkanTensor 1 [1; 4; 2; 2])
             (mkVImage (OwnImage 5) (4, 1, 1)) (mkVBuffer (OwnBuffer 7) 16)
             (Conv2D.mkParams 1 4 2 2 4 1 1 1 1 0 0 1 1 1 2 2 1 1) None None in
  let s' := final_state (run c idle_device) in
  ∃ tys,
    descriptor_sets (new_events idle_device s') = [tys] ∧
    omap (bound_type (const_blocks (new_events idle_device s'))) (new_events idle_device s')
      = imap (λ i ty, (Z.of_nat i, ty)) tys.
Proof.
  intros c s'. apply (descriptor_types_match_bindings c idle_device s').
  - apply Forall_cons. split; [|constructor]. unfold existing_buffer. simpl. lia.
  - vm_compute. reflexivity.
Defined.

(** ** cat without room in the output *)





(** ** addmm *)

(** X6.  [addmm] returns exactly when [m1] and [m2] are both 2-dimensional
    and the width of [m1] equals the height of [m2], both taken as
    [uint32_t]; it then requests the shader [addmm] when the term [t] is
    given and [mm] when it is not, and dispatches the grid
    [(columns of m2, rows of m1, 1)] with work groups of 8 x 8 x 1.
    Otherwise it fails, with nothing recorded, the first of its assertions
    that does not hold.  The sizes are indexed only after their number was
    checked, so no call reads out of range; the shapes of the output and of
    [t] are never looked at. *)
Theorem addmm_accepts_2d_operands
    (output : VulkanTensor) (t : option VulkanTensor) (m1 m2 : VulkanTensor)
    (beta alpha : float) (s : State) :
  match addmm output t m1 m2 beta alpha s with
  | Returns _ s' =>
      ∃ a k k' b,
        sizes m1 = [a; k] ∧ sizes m2 = [k'; b] ∧ to_uint32 k = to_uint32 k' ∧
        shaders (new_events s s') =
          [match t with Some _ => GLSL_SPV.addmm | None => GLSL_SPV.mm end] ∧
        dispatchCommandBuffer_ev (to_uint32 b) (to_uint32 a) 1
          (Some (mkWorkGroupSize 8 8 1)) ∈ new_events s s'
  | AssertionFailed msg s' =>
      s' = s ∧
      (length (sizes m1) ≠ 2%nat ∧ msg = "m1Sizes.size() == 2"
       ∨ length (sizes m1) = 2%nat ∧ length (sizes m2) ≠ 2%nat ∧
         msg = "m2Sizes.size() == 2"
       ∨ ∃ a k k' b,
           sizes m1 = [a; k] ∧ sizes m2 = [k'; b] ∧
           to_uint32 k ≠ to_uint32 k' ∧ msg = "m1W == m2H")
  | Undefined _ => False
  end.
Proof.
  unfold addmm. step_ops.
  destruct (decide (length (sizes m1) = 2%nat)) as [H1|H1];
    [rewrite (bool_decide_eq_true_2 _ H1)
    |rewrite (bool_decide_eq_false_2 _ H1); split; [done|by left]].
  step_ops.
  destruct (decide (length (sizes m2) = 2%nat)) as [H2|H2];
    [rewrite (bool_decide_eq_true_2 _ H2)
    |rewrite (bool_decide_eq_false_2 _ H2); split; [done|right; by left]].
  step_ops.
  destruct (sizes m1) as [|a [|k [|? ?]]]; try discriminate.
  destruct (sizes m2) as [|k' [|b [|? ?]]]; try discriminate.
  cbn [lookup list_lookup]. step_ops.
  destruct (decide (to_uint32 k = to_uint32 k')) as [Hk|Hk];
    [rewrite (bool_decide_eq_true_2 _ Hk)
    |rewrite (bool_decide_eq_false_2 _ Hk); split; [done|]; do 2 right;
     by exists a, k, k', b].
  step_ops. rewrite (bool_decide_eq_true_2 (1 = 1)) by done. step_ops.
  destruct t; step_ops; exists a, k, k', b;
    (erewrite !new_events_app by trace_eq);
    (split_and!; [done|done|done|reflexivity|in_list]).
Qed.

(** ** conv2d and conv2d_depthwise *)



(** X8.  [conv2d_depthwise] validates the group count and the height and
    width of the output in the same way: it returns exactly when [G = C] and
    sizes 2 and 3 of the output are [OH] and [OW], having requested
    [conv2d_dw_clamp] and dispatched the grid [(OW, OH, OC_4)] with work
    groups of 8 x 8 x 1; otherwise the first check that does not hold fails
    with the text of its condition, or, on an output of fewer than 4
    dimensions, a size is read out of range.  A failed call leaves the state
    as it was. *)
Theorem conv2d_depthwise_validates_output_size
    (output input weight : VulkanTensor) (biasBuffer : VBuffer)
    (params : Conv2DParams) (output_min output_max : option float) (s : State) :
  match conv2d_depthwise output input weight biasBuffer params
          output_min output_max s with
  | Returns _ s' =>
      Conv2D.G params = Conv2D.C params ∧
      sizes output !! 2%nat = Some (Conv2D.OH params) ∧
      sizes output !! 3%nat = Some (Conv2D.OW params) ∧
      shaders (new_events s s') = [GLSL_SPV.conv2d_dw_clamp] ∧
      dispatchCommandBuffer_ev (Conv2D.OW params) (Conv2D.OH params)
        (Conv2D.OC_4 params) (Some (mkWorkGroupSize 8 8 1)) ∈ new_events s s'
  | AssertionFailed msg s' =>
      s' = s ∧
      (Conv2D.G params ≠ Conv2D.C params ∧ msg = "params.G == params.C"
       ∨ Conv2D.G params = Conv2D.C params ∧ msg = "osizes[2] == params.OH" ∧
         (∃ h, sizes output !! 2%nat = Some h ∧ h ≠ Conv2D.OH params)
       ∨ Conv2D.G params = Conv2D.C params ∧ msg = "osizes[3] == params.OW" ∧
         sizes output !! 2%nat = Some (Conv2D.OH params) ∧
         ∃ w, sizes output !! 3%nat = Some w ∧ w ≠ Conv2D.OW params)
  | Undefined s' =>
      s' = s ∧ Conv2D.G params = Conv2D.C params ∧ (length (sizes output) < 4)%nat
  end.
Proof.
  unfold conv2d_depthwise. step_ops. branches; decided; subst.
  - (erewrite !new_events_app by trace_eq).
    split_and!; [done..|reflexivity|in_list].
  - split; [done|]. do 2 right. split_and!; [done..|]. by eexists.
  - split_and!; [done..|lia].
  - split; [done|]. right; left. split_and!; [done..|]. by eexists.
  - split_and!; [done..|lia].
  - split; [done|]. by left.
Qed.

(** How the overloads of [conv2d] end, by the commands they add. *)












(** ** Prepacking the weights *)


Lemma repack_unpack fresh weights OC C KH KW :
  0 ≤ OC → 0 ≤ C → 0 ≤ KH → 0 ≤ KW →
  length weights = Z.to_nat (OC * C * KH * KW) →
  length fresh = Z.to_nat (kBufSizeNumel OC C KH KW) →
  length (kernelNCHW_OCHW_repack_O4C4HWi4o4 true fresh weights OC C KH KW)
    = Z.to_nat (kBufSizeNumel OC C KH KW) ∧
  unpack (kernelNCHW_OCHW_repack_O4C4HWi4o4 true fresh weights OC C KH KW) OC C KH KW
    = weights.
Proof.
  intros HOC HC HKH HKW Hw Hfresh.
  destruct (repack_inv_run OC C KH KW weights HOC HC HKH HKW fresh)
    as (st & Hs & _ & Hlen & Hset & _); [done|].
  rewrite Hs. split; [done|].
  apply unpack_packed; try done.
  intros oc ic ky kx Hin. apply Hset; [done|].
  pose proof (dense_index_bound _ _ _ _ _ _ _ _ Hin). lia.
Qed.

(** X11.  What [conv2d_prepack_weights_to_image] hands to the shader is the
    repacked form of the weights it was given.  For sizes in the range of
    [int], a successful host mapping and an image of the expected size, the
    call returns; the buffer it created first was written, before the
    dispatch, with a content that unpacks to the dense weights; that same
    buffer is bound at index 1; and before the dispatch a buffer barrier
    over all its bytes and the barrier from host writes to shader reads are
    recorded. *)
Theorem prepack_uploads_repacked_weights
    (image : VImage) (weight : list float) (OC C KH KW : Z) (s : State) :
  int_defined OC C KH KW → KH ≤ INT_MAX → KW ≤ INT_MAX →
  host_mappable s = true →
  length weight = Z.to_nat (OC * C * KH * KW) →
  length (fresh_memory s (kBufSizeNumel OC C KH KW))
    = Z.to_nat (kBufSizeNumel OC C KH KW) →
  image_sizes image = imageSize (conv2d_prepack_weights_image_sizes OC C KH KW) →
  ∃ s' packed,
    conv2d_prepack_weights_to_image image weight OC C KH KW s = Returns tt s' ∧
    unpack packed OC C KH KW = weight ∧
    map_flushWriteToDevice_ev (OwnBuffer (next_id s)) packed
      ∈ before_dispatch (new_events s s') ∧
    (1, BoundBuffer (OwnBuffer (next_id s))) ∈ bindings (new_events s s') ∧
    addBufferMemoryBarrier_ev (OwnBuffer (next_id s)) 0
      (sizeof_float * Z.of_nat (length packed)) ∈ before_dispatch (new_events s s') ∧
    addMemoryBarrier_host_write_to_shader_read_ev
      ∈ before_dispatch (new_events s s').
Proof.
  destruct s as [sto nid al hm fm tr]. cbn [host_mappable fresh_memory next_id].
  intros Hint HKHmax HKWmax -> Hw Hfresh Hsz.
  pose proof Hint as (HOC & HC & HKH & HKW & HOCmax & HCmax & _ & _ & Hbuf & _).
  destruct (repack_unpack (fm (kBufSizeNumel OC C KH KW)) weight OC C KH KW)
    as [Hlen Hback]; try done.
  assert (0 ≤ kBufSizeNumel OC C KH KW) as Hpos.
  { unfold kBufSizeNumel. rewrite !ALIGN_UP4_UP_DIV.
    pose proof (UP_DIV4_spec OC HOC). pose proof (UP_DIV4_spec C HC).
    repeat apply Z.mul_nonneg_nonneg; lia. }
  eexists. exists (kernelNCHW_OCHW_repack_O4C4HWi4o4 true
                     (fm (kBufSizeNumel OC C KH KW)) weight OC C KH KW).
  split_and!; [|done|..].
  - unfold conv2d_prepack_weights_to_image. step_ops.
    rewrite !(to_int32_small OC), !(to_int32_small C), !(to_int32_small KH),
      !(to_int32_small KW) by (unfold INT_MAX in *; lia).
    rewrite bool_decide_eq_true_2 by done. step_ops.
    reflexivity.
  - (erewrite !new_events_app by trace_eq). simpl. in_list.
  - (erewrite !new_events_app by trace_eq). simpl. in_list.
  - (erewrite !new_events_app by trace_eq).
    rewrite Hlen, Z2Nat.id by done.
    fold (kBufSizeNumel OC C KH KW).
    rewrite to_uint64_small by (unfold INT_MAX, sizeof_float in *; lia).
    simpl. in_list.
  - (erewrite !new_events_app by trace_eq). simpl. in_list.
Qed.

Lemma prepack_uploads_repacked_weights_witness :
  let weight := [1; 2; 3; 4; 5; 6; 7; 8; 9; 10] in
  let image := mkVImage (OwnImage 0) (8, 1, 2) in
  ∃ s' packed,
    conv2d_prepack_weights_to_image image weight 1 5 1 2 idle_device = Returns tt s' ∧
    unpack packed 1 5 1 2 = weight ∧
    map_flushWriteToDevice_ev (OwnBuffer (next_id idle_device)) packed
      ∈ before_dispatch (new_events idle_device s') ∧
    (1, BoundBuffer (OwnBuffer (next_id idle_device)))
      ∈ bindings (new_events idle_device s') ∧
    addBufferMemoryBarrier_ev (OwnBuffer (next_id idle_device)) 0
      (sizeof_float * Z.of_nat (length packed))
      ∈ before_dispatch (new_events idle_device s') ∧
    addMemoryBarrier_host_write_to_shader_read_ev
      ∈ before_dispatch (new_events idle_device s').
Proof.
  intros weight image.
  apply (prepack_uploads_repacked_weights image weight 1 5 1 2 idle_device);
    [unfold int_defined; vm_compute; intuition discriminate
    | vm_compute; discriminate | vm_compute; discriminate
    | reflexivity | reflexivity | reflexivity | reflexivity].
Defined.

(** ** Buffers from host data *)

(** X12.  [bufferFromOptionalHostData], for a non-negative buffer size and a
    positive alignment limit of the device, returns exactly when the data
    size does not exceed the buffer size.  The buffer it creates is the next
    object of the device; its size is the least multiple of the alignment
    limit that is not below the requested buffer size, so the data fit; and
    the only commands are the creation of the buffer followed by the copy
    of [dataSize] bytes from the host when data are given, or by the
    zero-fill when they are not.  Otherwise the assertion fails with both
    sizes in its message and nothing is created. *)
Theorem bufferFromOptionalHostData_fits
    (data : option (list float)) (dataSize bufferSize : Z) (s : State) :
  0 ≤ bufferSize → 0 < minStorageBufferOffsetAlignment s →
  match bufferFromOptionalHostData data dataSize bufferSize s with
  | Returns b s' =>
      dataSize ≤ bufferSize ∧
      bufferSize ≤ sizeBytes b < bufferSize + minStorageBufferOffsetAlignment s ∧
      (minStorageBufferOffsetAlignment s | sizeBytes b) ∧
      buffer_ref b = OwnBuffer (next_id s) ∧
      new_events s s' =
        [VBuffer_ev b;
         match data with
         | Some d => copy_from_host_to_device_ev (buffer_ref b) d dataSize
         | None => set_zeros_ev (buffer_ref b)
         end]
  | AssertionFailed msg s' =>
      s' = s ∧ bufferSize < dataSize ∧
      msg = "buffer size(" +:+ pretty bufferSize +:+ ") is not enough for data("
              +:+ pretty dataSize +:+ ")"
  | Undefined _ => False
  end.
Proof.
  destruct s as [sto nid a hm fm tr]. cbn [minStorageBufferOffsetAlignment next_id].
  intros Hb Ha. unfold bufferFromOptionalHostData. step_ops.
  destruct (decide (dataSize ≤ bufferSize)) as [Hle|Hgt];
    [rewrite (bool_decide_eq_true_2 _ Hle)
    |rewrite (bool_decide_eq_false_2 _ Hgt); split_and!; [done|lia|done]].
  assert (bufferSize ≤ ROUND_UP bufferSize a < bufferSize + a ∧
          (a | ROUND_UP bufferSize a)) as [Hr Hd].
  { unfold ROUND_UP. rewrite Z.quot_div_nonneg by lia.
    pose proof (Z.div_mod (bufferSize + a - 1) a ltac:(lia)).
    pose proof (Z.mod_pos_bound (bufferSize + a - 1) a Ha).
    split; [lia|]. by eexists. }
  destruct data; step_ops;
    (erewrite !new_events_app by trace_eq); split_and!; try done; lia.
Qed.

Lemma bufferFromOptionalHostData_fits_witness :
  ∃ b s',
    bufferFromOptionalHostData (Some [1; 2; 3]) 12 16 idle_device = Returns b s' ∧
    12 ≤ 16 ∧ 16 ≤ sizeBytes b < 16 + 16 ∧ (16 | sizeBytes b).
Proof.
  pose proof (bufferFromOptionalHostData_fits (Some [1; 2; 3]) 12 16 idle_device
                ltac:(lia) ltac:(simpl; lia)) as H.
  destruct (bufferFromOptionalHostData _ _ _ _) as [b s'| |] eqn:Hrun;
    [|discriminate Hrun..].
  destruct H as (H1 & H2 & H3 & _). by exists b, s'.
Defined.

(** ** Geometry of the elementwise operators *)

(** X13.  [clamp] and [mean] index sizes 0 to 3 without any check of the
    rank.  [clamp] takes its geometry from the output tensor, never from the
    input: on an output of at least 4 dimensions [[n; c; h; w; ...]] it
    uploads the block [(w, h, ceil(n*c/4), n*c, min, max)] and dispatches
    the grid [(w, h, n*c)]; [mean] reads the input: on [[n; c; h; w; ...]]
    it uploads the block [(w, h, c, n)] and dispatches [(1, 1, ceil(n*c/4))]
    with work groups of a single invocation.  Sizes beyond the fourth are
    ignored.  On fewer than 4 dimensions the read is out of range, with
    nothing recorded; neither function can fail an assertion. *)
Theorem clamp_and_mean_index_sizes_unchecked
    (output input : VulkanTensor) (min max : float) (s : State) :
  match clamp output input min max s with
  | Returns _ s' =>
      ∃ n c h w rest c4,
        sizes output = n :: c :: h :: w :: rest ∧
        (0 ≤ n * c → ceil_div4 (n * c) c4) ∧
        const_fields (new_events s s') =
          [[int32_t (to_int32 w); int32_t (to_int32 h);
            int32_t (to_int32 c4); int32_t (to_int32 (n * c));
            float_t min; float_t max]] ∧
        dispatchCommandBuffer_ev w h (n * c) (Some (mkWorkGroupSize 8 8 1))
          ∈ new_events s s'
  | AssertionFailed _ _ => False
  | Undefined s' => s' = s ∧ (length (sizes output) < 4)%nat
  end ∧
  match mean output input s with
  | Returns _ s' =>
      ∃ n c h w rest c4,
        sizes input = n :: c :: h :: w :: rest ∧
        (0 ≤ n * c → ceil_div4 (n * c) c4) ∧
        const_fields (new_events s s') =
          [[int32_t (to_int32 w); int32_t (to_int32 h);
            int32_t (to_int32 c); int32_t (to_int32 n)]] ∧
        dispatchCommandBuffer_ev 1 1 c4 (Some (mkWorkGroupSize 1 1 1))
          ∈ new_events s s'
  | AssertionFailed _ _ => False
  | Undefined s' => s' = s ∧ (length (sizes input) < 4)%nat
  end.
Proof.
  unfold clamp, mean. split.
  - destruct (sizes output) as [|n [|c [|h [|w rest]]]]; step_ops;
      try (split; [done|simpl; lia]).
    exists n, c, h, w, rest, (UP_DIV (n * c) 4).
    (erewrite !new_events_app by trace_eq).
    split_and!; [done|apply UP_DIV4_ceil|reflexivity|in_list].
  - destruct (sizes input) as [|n [|c [|h [|w rest]]]]; step_ops;
      try (split; [done|simpl; lia]).
    exists n, c, h, w, rest, (UP_DIV (n * c) 4).
    (erewrite !new_events_app by trace_eq).
    split_and!; [done|apply UP_DIV4_ceil|reflexivity|in_list].
Qed.

Lemma pad4_length (shape : list Z) n c h w :
  pad4 shape = [n; c; h; w] → (length shape ≤ 4)%nat.
Proof.
  destruct shape as [|a [|b [|x [|d [|e l]]]]]; simpl; try lia. discriminate.
Qed.

(** X14.  Tensor + tensor [add] on operands whose shapes, left-padded to 4
    dimensions with 1s, are all [[n; c; h; w]] returns after uploading the
    constant block [(w, h, n*c, alpha)], requesting the shader [add] and
    dispatching the grid [(w, h, n*c)] with work groups of 8 x 8 x 1: a
    2-dimensional operand [[h; w]] is processed as [1 x 1 x h x w]. *)
Theorem add_dispatches_padded_shape
    (output input0 input1 : VulkanTensor) (alpha : float) (s : State) (n c h w : Z) :
  pad4 (sizes output) = [n; c; h; w] →
  pad4 (sizes input0) = [n; c; h; w] →
  pad4 (sizes input1) = [n; c; h; w] →
  ∃ s', add output input0 input1 alpha s = Returns tt s' ∧
        const_fields (new_events s s') =
          [[int32_t (to_int32 w); int32_t (to_int32 h); int32_t (to_int32 (n * c));
            float_t alpha]] ∧
        shaders (new_events s s') = [GLSL_SPV.add] ∧
        dispatchCommandBuffer_ev w h (n * c) (Some (mkWorkGroupSize 8 8 1))
          ∈ new_events s s'.
Proof.
  intros Ho H0 H1.
  pose proof (pad4_length _ _ _ _ _ Ho). pose proof (pad4_length _ _ _ _ _ H0).
  pose proof (pad4_length _ _ _ _ _ H1).
  unfold add. step_ops. unfold dim.
  rewrite !bool_decide_eq_true_2 by lia. step_ops.
  rewrite !copy_to_end4_pad4 by lia. rewrite Ho, H0, H1.
  rewrite !bool_decide_eq_true_2 by done. step_ops.
  eexists. split; [reflexivity|].
  (erewrite !new_events_app by trace_eq).
  split_and!; [reflexivity..|in_list].
Qed.

Lemma add_dispatches_padded_shape_witness :
  let t := mkVulkanTensor 0 [5; 7] in
  ∃ s', add t t t 0 idle_device = Returns tt s' ∧
        const_fields (new_events idle_device s') =
          [[int32_t (to_int32 7); int32_t (to_int32 5); int32_t (to_int32 (1 * 1));
            float_t 0]] ∧
        shaders (new_events idle_device s') = [GLSL_SPV.add] ∧
        dispatchCommandBuffer_ev 7 5 (1 * 1) (Some (mkWorkGroupSize 8 8 1))
          ∈ new_events idle_device s'.
Proof.
  intros t. apply (add_dispatches_padded_shape t t t 0 idle_device 1 1 5 7); reflexivity.
Defined.
